(** * Business-registration wizard: data-access layer, step controller,
      draft store and checkout proxy

    A shallow embedding of [src/utils/firebase.ts], of the registration page
    component and of the create-checkout-session route, together with the
    properties stated for them.

    Conventions of the embedding.
    - A JavaScript value is a [JsValue].  An object is the list of its own
      enumerable properties in insertion order; a well-formed object has
      distinct keys.  The ordering of integer-like keys is not modelled.
    - Numbers that the wizard stores are integers or [NaN]; fractions,
      infinities and the rounding of integers beyond 2^53 are outside
      [JsValue].  The checkout amount is an IEEE binary64 [float], as in
      JavaScript.
    - Strings are sequences of 8-bit code units.
    - A function that may throw returns a [Result].
    - The document store, the object storage, the session storage and the
      payment provider are modelled by what the code relies on: a store of
      documents that refuses [undefined], a set of object paths, a map of
      strings, a function that returns a session or throws. *)

From Stdlib Require Import ZArith String Ascii List Bool Lia Floats.
From Stdlib Require Import DecimalString DecimalN DecimalZ DecimalPos DecimalFacts.
From stdpp Require Import gmap strings list sorting.

Local Open Scope string_scope.
Local Open Scope list_scope.

(** ** JavaScript values *)

Module Js.

Inductive Num : Type :=
| Int (z : Z)
| NaN.

Unset Elimination Schemes.
Inductive JsValue : Type :=
| JUndefined
| JNull
| JBool (b : bool)
| JNum (n : Num)
| JStr (s : string)
| JFile (name : string)
| JArr (elems : list JsValue)
| JObj (props : list (string * JsValue)).
Set Elimination Schemes.

(** The own enumerable properties of an object, in insertion order. *)
Abbreviation Obj := (list (string * JsValue)).

Inductive JsError : Type :=
| TypeError
| URIError
| SyntaxError
| Error (message : string).

Inductive Result (A : Type) : Type :=
| Ok (a : A)
| Throw (e : JsError).
Arguments Ok {A} a.
Arguments Throw {A} e.

#[export] Instance Result_bind : MBind Result :=
  fun A B (k : A -> Result B) (r : Result A) =>
    match r with
    | Ok a => k a
    | Throw e => Throw e
    end.

(** Induction over values that reaches the elements of arrays and the
    property values of objects. *)
Section JsValue_induction.
Variable P : JsValue -> Prop.
Hypothesis Hundef : P JUndefined.
Hypothesis Hnull : P JNull.
Hypothesis Hbool : forall b, P (JBool b).
Hypothesis Hnum : forall n, P (JNum n).
Hypothesis Hstr : forall s, P (JStr s).
Hypothesis Hfile : forall f, P (JFile f).
Hypothesis Harr : forall elems, Forall P elems -> P (JArr elems).
Hypothesis Hobj : forall props, Forall (fun kv => P (snd kv)) props -> P (JObj props).

Fixpoint JsValue_deep_ind (v : JsValue) : P v :=
  match v with
  | JUndefined => Hundef
  | JNull => Hnull
  | JBool b => Hbool b
  | JNum n => Hnum n
  | JStr s => Hstr s
  | JFile f => Hfile f
  | JArr elems =>
      Harr elems
        ((fix go (l : list JsValue) : Forall P l :=
            match l with
            | [] => @List.Forall_nil _ P
            | x :: l' => @List.Forall_cons _ P x l' (JsValue_deep_ind x) (go l')
            end) elems)
  | JObj props =>
      Hobj props
        ((fix go (l : Obj) : Forall (fun kv => P (snd kv)) l :=
            match l with
            | [] => @List.Forall_nil _ _
            | kv :: l' => @List.Forall_cons _ _ kv l' (JsValue_deep_ind (snd kv)) (go l')
            end) props)
  end.

End JsValue_induction.

Definition is_undefined (v : JsValue) : bool :=
  match v with
  | JUndefined => true
  | _ => false
  end.

(** [o[key]] on a property list: the first entry with that key. *)
Fixpoint obj_get (key : string) (props : Obj) : option JsValue :=
  match props with
  | [] => None
  | (k, v) :: rest => if String.eqb k key then Some v else obj_get key rest
  end.

(** [o[key] = value]: an existing property keeps its position, a new one
    is added last. *)
Fixpoint obj_set (key : string) (value : JsValue) (props : Obj) : Obj :=
  match props with
  | [] => [(key, value)]
  | (k, v) :: rest =>
      if String.eqb k key then (k, value) :: rest
      else (k, v) :: obj_set key value rest
  end.

(** [Object.assign(target, source)] on property lists; [{...source}] is
    [assign [] source]. *)
Definition assign (target source : Obj) : Obj :=
  fold_left (fun acc kv => obj_set (fst kv) (snd kv) acc) source target.

Definition string_of_nat (i : nat) : string :=
  NilZero.string_of_uint (Nat.to_uint i).

Fixpoint indexed {A} (i : nat) (l : list A) : list (string * A) :=
  match l with
  | [] => []
  | x :: l' => (string_of_nat i, x) :: indexed (S i) l'
  end.

Fixpoint chars (s : string) : list JsValue :=
  match s with
  | EmptyString => []
  | String c s' => JStr (String c EmptyString) :: chars s'
  end.

(** What [Object.entries(v)], object spread and [Object.assign(_, v)]
    enumerate. *)
Definition own_entries (v : JsValue) : Obj :=
  match v with
  | JObj props => props
  | JArr elems => indexed 0 elems
  | JStr s => indexed 0 (chars s)
  | _ => []
  end.

(** Property read [v.key].  Reading from [undefined] or [null] throws;
    a missing property reads as [undefined].  Of the inherited accessors
    only a file's [name] is modelled. *)
Definition js_prop (v : JsValue) (key : string) : Result JsValue :=
  match v with
  | JUndefined | JNull => Throw TypeError
  | JObj props => Ok (default JUndefined (obj_get key props))
  | JFile name => Ok (if String.eqb key "name" then JStr name else JUndefined)
  | _ => Ok JUndefined
  end.

(** Some occurrence of [undefined], as a property value or as an array
    element, at any depth. *)
Fixpoint contains_undefined (v : JsValue) : bool :=
  match v with
  | JUndefined => true
  | JArr elems => existsb contains_undefined elems
  | JObj props => existsb (fun kv => contains_undefined (snd kv)) props
  | _ => false
  end.

(** Some object property, at any depth, whose value is [undefined]. *)
Fixpoint undefined_field (v : JsValue) : bool :=
  match v with
  | JArr elems => existsb undefined_field elems
  | JObj props =>
      existsb (fun kv => is_undefined (snd kv) || undefined_field (snd kv)) props
  | _ => false
  end.

(** No array, at any depth, has [undefined] as an element. *)
Fixpoint elements_defined (v : JsValue) : bool :=
  match v with
  | JArr elems =>
      forallb (fun x => negb (is_undefined x) && elements_defined x) elems
  | JObj props => forallb (fun kv => elements_defined (snd kv)) props
  | _ => true
  end.

Fixpoint distinct (keys : list string) : bool :=
  match keys with
  | [] => true
  | k :: rest => negb (existsb (String.eqb k) rest) && distinct rest
  end.

(** Plain data without an [undefined]-valued property: objects with
    distinct keys, no host object. *)
Fixpoint sanitized (v : JsValue) : bool :=
  match v with
  | JFile _ => false
  | JArr elems => forallb sanitized elems
  | JObj props =>
      distinct (map fst props)
      && forallb (fun kv => negb (is_undefined (snd kv)) && sanitized (snd kv)) props
  | _ => true
  end.

(** Objects with distinct keys at every depth: what a JavaScript value
    is. *)
Fixpoint well_formed (v : JsValue) : bool :=
  match v with
  | JArr elems => forallb well_formed elems
  | JObj props =>
      distinct (map fst props) && forallb (fun kv => well_formed (snd kv)) props
  | _ => true
  end.

(** [ToBoolean]: what [v || w] and [v && w] test. *)
Definition js_truthy (v : JsValue) : bool :=
  match v with
  | JUndefined | JNull | JBool false | JNum NaN | JNum (Int 0)
  | JStr EmptyString => false
  | _ => true
  end.

(** The value of a hexadecimal digit. *)
Definition hex_value (c : ascii) : option N :=
  let n := N_of_ascii c in
  if (48 <=? n)%N && (n <=? 57)%N then Some (n - 48)%N
  else if (65 <=? n)%N && (n <=? 70)%N then Some (n - 55)%N
  else if (97 <=? n)%N && (n <=? 102)%N then Some (n - 87)%N
  else None.

End Js.

Import Js.

(** ** Data-access layer ([src/utils/firebase.ts]) *)

Module Firebase.

(** [cleanFirestoreData]: arrays are mapped element by element; of an
    object (anything non-null with [typeof data === 'object']) the entries
    whose value is not [undefined] are copied, cleaned, into a fresh
    object. *)
Fixpoint cleanFirestoreData (data : JsValue) : JsValue :=
  match data with
  | JArr elems => JArr (map cleanFirestoreData elems)
  | JObj props =>
      JObj (fold_left
              (fun acc kv =>
                 if is_undefined (snd kv) then acc
                 else obj_set (fst kv) (cleanFirestoreData (snd kv)) acc)
              props [])
  | JFile _ => JObj []
  | _ => data
  end.

(** The document store: one property list per document path
    [users/{userId}/businesses/{businessId}].  [setDoc] replaces the
    document, [updateDoc] replaces the listed top-level fields of an
    existing document and fails on a missing one.  Both take an object
    and refuse data that holds [undefined] anywhere.  Field paths (keys
    with dots) are not modelled. *)
Abbreviation DocRef := (string * string)%type.
Abbreviation Store := (gmap (string * string) Obj).

Definition setDoc (db : Store) (ref : DocRef) (data : JsValue) : Result Store :=
  match data with
  | JObj fields =>
      if contains_undefined data then Throw (Error "invalid-argument")
      else Ok (<[ref := fields]> db)
  | _ => Throw (Error "invalid-argument")
  end.

Definition updateDoc (db : Store) (ref : DocRef) (data : JsValue) : Result Store :=
  match data with
  | JObj fields =>
      if contains_undefined data then Throw (Error "invalid-argument")
      else
        match db !! ref with
        | Some old => Ok (<[ref := assign old fields]> db)
        | None => Throw (Error "not-found")
        end
  | _ => Throw (Error "invalid-argument")
  end.

(** A write that throws leaves the store as it was. *)
Definition commit {A : Type} (db : Store) (r : Result Store) (a : A) : Store * Result A :=
  match r with
  | Ok db' => (db', Ok a)
  | Throw e => (db, Throw e)
  end.

(** A call of the data-access layer, with what the environment supplies
    to it: the generated identifier, the clock reading. *)
Inductive Op : Type :=
| CreateDraft (newId userId : string) (businessData : Obj)
| UpdateDraft (userId businessId : string) (updateData : Obj)
| CompleteRegistration (now : JsValue) (userId businessId : string)
    (paymentDetails : Obj).

(** An update that leaves [status] and [paymentDetails] alone; a call
    is [op_ok] when it is such an update, a completion, or a creation under
    an identifier that is not in use. *)
Definition plain_update (updateData : Obj) : bool :=
  negb (existsb (String.eqb "status") (map fst updateData))
  && negb (existsb (String.eqb "paymentDetails") (map fst updateData)).

Definition op_ok (db : Store) (op : Op) : Prop :=
  match op with
  | CreateDraft newId userId _ => db !! (userId, newId) = None
  | UpdateDraft _ _ updateData => plain_update updateData = true
  | CompleteRegistration _ _ _ _ => True
  end.

Section DataAccess.

(** The [serverTimestamp()] sentinel of the SDK. *)
Variable serverTimestamp : JsValue.

(** The object literal [{...businessData, createdAt, updatedAt, status}]. *)
Definition formatted_draft (businessData : Obj) : Obj :=
  obj_set "status" (JStr "draft")
    (obj_set "updatedAt" serverTimestamp
       (obj_set "createdAt" serverTimestamp (assign [] businessData))).

(** [newId] is the identifier that [doc(businessesCollectionRef)]
    generates. *)
Definition saveBusinessDraft (db : Store) (newId userId : string)
    (businessData : Obj) : Store * Result string :=
  let formattedBusinessData := formatted_draft businessData in
  commit db
    (setDoc db (userId, newId) (cleanFirestoreData (JObj formattedBusinessData)))
    newId.

(** [now] is the reading of [Timestamp.now()] in this call. *)
Definition completeBusinessRegistration (db : Store) (now : JsValue)
    (userId businessId : string) (paymentDetails : Obj) : Store * Result string :=
  let formattedPaymentDetails := obj_set "createdAt" now (assign [] paymentDetails) in
  commit db
    (updateDoc db (userId, businessId)
       (cleanFirestoreData
          (JObj [("paymentDetails", JObj formattedPaymentDetails);
                 ("status", JStr "completed");
                 ("updatedAt", now)])))
    businessId.

Definition getBusinessDraft (db : Store) (userId businessId : string) : Result JsValue :=
  match db !! (userId, businessId) with
  | Some fields => Ok (JObj fields)
  | None => Throw (Error "Business draft not found")
  end.

Definition updateBusiness (db : Store) (userId businessId : string)
    (updateData : Obj) : Store * Result string :=
  let updatedData := obj_set "updatedAt" serverTimestamp (assign [] updateData) in
  commit db
    (updateDoc db (userId, businessId) (cleanFirestoreData (JObj updatedData)))
    businessId.

Definition perform (db : Store) (op : Op) : Store * Result string :=
  match op with
  | CreateDraft newId userId businessData =>
      saveBusinessDraft db newId userId businessData
  | UpdateDraft userId businessId updateData =>
      updateBusiness db userId businessId updateData
  | CompleteRegistration now userId businessId paymentDetails =>
      completeBusinessRegistration db now userId businessId paymentDetails
  end.

Definition run (db : Store) (ops : list Op) : Store :=
  fold_left (fun db op => fst (perform db op)) ops db.

(** Every call of the sequence is [op_ok] in the store it meets. *)
Fixpoint admissible (db : Store) (ops : list Op) : Prop :=
  match ops with
  | [] => True
  | op :: ops' => op_ok db op /\ admissible (fst (perform db op)) ops'
  end.

End DataAccess.

(** The [status] of a stored document, and whether it carries payment
    details. *)
Definition status_of (doc : Obj) : option JsValue := obj_get "status" doc.

Definition completed (db : Store) (ref : DocRef) : Prop :=
  exists doc, db !! ref = Some doc /\ status_of doc = Some (JStr "completed").

Definition has_payment (doc : Obj) : bool :=
  match obj_get "paymentDetails" doc with
  | Some JNull | Some JUndefined | None => false
  | Some _ => true
  end.

(** What the store accepts and [cleanFirestoreData] produces. *)
Definition storable (doc : Obj) : bool :=
  sanitized (JObj doc) && negb (contains_undefined (JObj doc)).

Definition store_ok (db : Store) : Prop :=
  map_Forall (fun _ doc => storable doc = true) db.

(** A document is a draft, or it is completed and carries payment
    details. *)
Definition status_ok (doc : Obj) : Prop :=
  status_of doc = Some (JStr "draft")
  \/ (status_of doc = Some (JStr "completed") /\ has_payment doc = true).

Definition store_inv (db : Store) : Prop :=
  map_Forall (fun _ doc => status_ok doc) db.

(** One round of the [reduce] in [cleanFirestoreData]. *)
Definition clean_step (acc : Obj) (kv : string * JsValue) : Obj :=
  if is_undefined (snd kv) then acc
  else obj_set (fst kv) (cleanFirestoreData (snd kv)) acc.

Definition field_ok (kv : string * JsValue) : Prop :=
  is_undefined (snd kv) = false /\ sanitized (snd kv) = true.

(** What an [updateDoc] of the cleaned object [props] comes to. *)
Definition update_outcome (db : Store) (ref : DocRef) (props : Obj) (a : string)
    : Store * Result string :=
  if contains_undefined (cleanFirestoreData (JObj props))
  then (db, Throw (Error "invalid-argument"))
  else match db !! ref with
       | Some old => (<[ref := assign old (fold_left clean_step props [])]> db, Ok a)
       | None => (db, Throw (Error "not-found"))
       end.

(** The object literal that [completeBusinessRegistration] cleans. *)
Definition payment_update (now : JsValue) (paymentDetails : Obj) : Obj :=
  [("paymentDetails", JObj (obj_set "createdAt" now (assign [] paymentDetails)));
   ("status", JStr "completed");
   ("updatedAt", now)].

(** What [cleanFirestoreData] does to the entries of an object with
    distinct keys: it keeps the defined ones and cleans their values. *)
Definition defined_entry (kv : string * JsValue) : bool :=
  negb (is_undefined (snd kv)).

Definition clean_entry (kv : string * JsValue) : string * JsValue :=
  (fst kv, cleanFirestoreData (snd kv)).

(** The document that a call addresses. *)
Definition target (op : Op) : DocRef :=
  match op with
  | CreateDraft newId userId _ => (userId, newId)
  | UpdateDraft userId businessId _ => (userId, businessId)
  | CompleteRegistration _ userId businessId _ => (userId, businessId)
  end.

(** *** Listing the businesses of a user *)

(** The snapshot of [getDocs] on [users/{userId}/businesses]: the
    documents of that user with their identifiers, in the order of the
    identifiers. *)
Definition id_le (a b : string * Obj) : Prop := String.le (fst a) (fst b).

#[export] Instance id_le_dec : RelDecision id_le :=
  fun a b => decide (String.le (fst a) (fst b)).

Definition user_doc (userId : string) (entry : DocRef * Obj) : option (string * Obj) :=
  if String.eqb (fst (fst entry)) userId then Some (snd (fst entry), snd entry)
  else None.

Definition docs_of (db : Store) (userId : string) : list (string * Obj) :=
  merge_sort id_le (omap (user_doc userId) (map_to_list db)).

(** [getBusinesses]: one object [{id: doc.id, ...cleanFirestoreData(doc.data())}]
    per document of the snapshot. *)
Definition getBusinesses (db : Store) (userId : string) : list JsValue :=
  map (fun d =>
         JObj (assign [("id", JStr (fst d))]
                 (own_entries (cleanFirestoreData (JObj (snd d))))))
    (docs_of db userId).

(** *** Download URLs and storage paths *)

Definition hex_upper (n : N) : ascii :=
  ascii_of_N (if (n <? 10)%N then 48 + n else 55 + n).

(** [decodeURIComponent]: every [%XX] becomes the code unit [XX]; a [%]
    that is not followed by two hexadecimal digits throws.  The check
    that the decoded units are well-formed UTF-8 is not modelled. *)
Fixpoint decodeURIComponent (s : string) : Result string :=
  match s with
  | EmptyString => Ok EmptyString
  | String c rest =>
      if Ascii.eqb c "%" then
        match rest with
        | String h (String l rest') =>
            match hex_value h, hex_value l with
            | Some a, Some b =>
                r ← decodeURIComponent rest';
                Ok (String (ascii_of_N (16 * a + b)) r)
            | _, _ => Throw URIError
            end
        | _ => Throw URIError
        end
      else
        r ← decodeURIComponent rest;
        Ok (String c r)
  end.

Definition uri_unreserved (c : ascii) : bool :=
  let n := N_of_ascii c in
  (48 <=? n)%N && (n <=? 57)%N
  || (65 <=? n)%N && (n <=? 90)%N
  || (97 <=? n)%N && (n <=? 122)%N
  || existsb (Ascii.eqb c) ["-"; "_"; "."; "!"; "~"; "*"; "'"; "("; ")"]%char.

(** [encodeURIComponent] on 8-bit code units. *)
Fixpoint encodeURIComponent (s : string) : string :=
  match s with
  | EmptyString => EmptyString
  | String c rest =>
      if uri_unreserved c then String c (encodeURIComponent rest)
      else
        let n := N_of_ascii c in
        String "%" (String (hex_upper (n / 16)) (String (hex_upper (n mod 16))
          (encodeURIComponent rest)))
  end.

(** The download URL that the storage service hands out for the object
    at [path]: the encoded path follows [/o/], the query string follows
    the path. *)
Definition download_url (bucket path token : string) : string :=
  String.append "https://firebasestorage.googleapis.com/v0/b/"
    (String.append bucket
       (String.append "/o/"
          (String.append (encodeURIComponent path)
             (String.append "?alt=media&token=" token)))).

Fixpoint starts_with (p s : string) : bool :=
  match p, s with
  | EmptyString, _ => true
  | String a p', String b s' => Ascii.eqb a b && starts_with p' s'
  | String _ _, EmptyString => false
  end.

(** [contains sep s]: [sep] occurs somewhere in [s]. *)
Fixpoint contains (sep s : string) : bool :=
  starts_with sep s
  || match s with
     | EmptyString => false
     | String _ s' => contains sep s'
     end.

(** [s.split(sep)] for a non-empty separator, as the first piece and the
    pieces after it.  Occurrences are found from left to right; [skip]
    counts the characters of the separator just matched that are still to
    be passed over. *)
Fixpoint split_go (sep : string) (skip : nat) (s : string) : string * list string :=
  match s with
  | EmptyString => (EmptyString, [])
  | String c s' =>
      match skip with
      | S n => split_go sep n s'
      | O =>
          if starts_with sep s then
            let '(piece, more) := split_go sep (String.length sep - 1) s' in
            (EmptyString, piece :: more)
          else
            let '(piece, more) := split_go sep 0 s' in
            (String c piece, more)
      end
  end.

Definition split (sep s : string) : string * list string := split_go sep 0 s.

(** No occurrence of [sep] begins inside [a] when [a] is followed by
    [rest]. *)
Fixpoint no_match_before (sep a rest : string) : bool :=
  match a with
  | EmptyString => true
  | String _ a' =>
      negb (starts_with sep (a +:+ rest)) && no_match_before sep a' rest
  end.

Definition getStoragePathFromUrl (url : string) : Result string :=
  decodedUrl ← decodeURIComponent url;
  match snd (split "/o/" decodedUrl) with
  | part :: _ => Ok (fst (split "?" part))
  | [] => Throw TypeError
  end.

(** The bucket: the paths of the stored objects, and the paths that were
    handed to [deleteObject], latest first. *)
Record Storage : Type := {
  objects : gset string;
  deletions : list string
}.

Definition deleteObject (st : Storage) (path : string) : Storage * Result unit :=
  if bool_decide (path ∈ objects st) then
    ({| objects := objects st ∖ {[path]}; deletions := path :: deletions st |}, Ok tt)
  else
    ({| objects := objects st; deletions := path :: deletions st |},
     Throw (Error "storage/object-not-found")).

(** [uploadDocument]: the object is stored under the user's folder, named
    by the upload time [now] (the reading of [Date.now()]) and the last
    dot-separated piece of the file name.  [bucket] and [token] are what
    the storage service puts into the download URL; the upload itself is
    taken to succeed. *)
Definition uploadDocument (bucket token : string) (st : Storage) (now : Z)
    (userId fileName : string) : Storage * Result string :=
  let '(first, more) := split "." fileName in
  let fileExtension := last (first :: more) in
  let name :=
    String.append (NilZero.string_of_int (Z.to_int now))
      (String.append "." (default "" fileExtension)) in
  let filePath :=
    String.append "users/"
      (String.append userId (String.append "/documents/" name)) in
  ({| objects := {[filePath]} ∪ objects st; deletions := deletions st |},
   Ok (download_url bucket filePath token)).

Definition deleteDocument (st : Storage) (documentUrl : string) : Storage * Result unit :=
  let attempt : Storage * Result unit :=
    match decodeURIComponent documentUrl with
    | Throw e => (st, Throw e)
    | Ok decodedUrl =>
        match snd (split "/o/" decodedUrl) with
        | part :: _ => deleteObject st (fst (split "?" part))
        | [] => (st, Throw TypeError)
        end
    end in
  match attempt with
  | (st', Ok _) => (st', Ok tt)
  | (st', Throw _) => (st', Throw (Error "Failed to delete document"))
  end.

End Firebase.

(** ** Registration page: step controller and draft store *)

Module Wizard.

(** *** Numbers as text *)

Abbreviation text := (list ascii).

Definition is_digit (c : ascii) : bool :=
  let n := N_of_ascii c in (48 <=? n)%N && (n <=? 57)%N.

(** The longest prefix of decimal digits, and what follows it. *)
Fixpoint digits (s : text) : text * text :=
  match s with
  | c :: r =>
      if is_digit c then let '(ds, r') := digits r in (c :: ds, r')
      else ([], s)
  | [] => ([], [])
  end.

Definition print_int (z : Z) : text :=
  list_ascii_of_string (NilZero.string_of_int (Z.to_int z)).

(** [n.toString()]. *)
Definition toString (n : Num) : string :=
  match n with
  | Int z => string_of_list_ascii (print_int z)
  | NaN => "NaN"
  end.

Definition is_space (c : ascii) : bool :=
  existsb (Ascii.eqb c) [" "; "009"; "010"; "011"; "012"; "013"]%char.

Fixpoint skip_space (s : text) : text :=
  match s with
  | c :: r => if is_space c then skip_space r else s
  | [] => []
  end.

(** [Number.parseInt(s, 10)]: leading white space, an optional sign, then
    the longest run of digits; [NaN] when there is no digit. *)
Definition parseInt (s : string) : Num :=
  let s1 := skip_space (list_ascii_of_string s) in
  let '(sign, s2) :=
    match s1 with
    | c :: r =>
        if Ascii.eqb c "-" then (["-"%char], r)
        else if Ascii.eqb c "+" then ([], r)
        else ([], s1)
    | [] => ([], s1)
    end in
  match NilZero.int_of_string (string_of_list_ascii (sign ++ fst (digits s2))) with
  | Some d => Int (Z.of_int d)
  | None => NaN
  end.

(** *** [JSON.stringify] *)

Definition dquote : ascii := "034"%char.
Definition backslash : ascii := "\"%char.

Definition hex_lower (n : N) : ascii :=
  ascii_of_N (if (n <? 10)%N then 48 + n else 87 + n).

Definition escape (c : ascii) : text :=
  let n := N_of_ascii c in
  if Ascii.eqb c dquote then [backslash; dquote]
  else if Ascii.eqb c backslash then [backslash; backslash]
  else if (n =? 8)%N then [backslash; "b"%char]
  else if (n =? 9)%N then [backslash; "t"%char]
  else if (n =? 10)%N then [backslash; "n"%char]
  else if (n =? 12)%N then [backslash; "f"%char]
  else if (n =? 13)%N then [backslash; "r"%char]
  else if (n <? 32)%N then
    [backslash; "u"; "0"; "0"; hex_lower (n / 16); hex_lower (n mod 16)]%char
  else [c].

Definition quote (s : string) : text :=
  dquote :: flat_map escape (list_ascii_of_string s) ++ [dquote].

(** The text of the elements after the first, up to the closing bracket. *)
Definition elems_tail (print : JsValue -> text) : list JsValue -> text :=
  fix go (l : list JsValue) : text :=
    match l with
    | [] => ["]"%char]
    | x :: l' => ","%char :: print x ++ go l'
    end.

(** The text of the properties up to the closing brace; [first] tells
    that no property has been written yet. *)
Definition members (print : JsValue -> text) : bool -> Obj -> text :=
  fix go (first : bool) (ps : Obj) : text :=
    match ps with
    | [] => ["}"%char]
    | kv :: ps' =>
        if is_undefined (snd kv) then go first ps'
        else
          (if first then [] else [","%char])
          ++ quote (fst kv) ++ ":"%char :: print (snd kv) ++ go false ps'
    end.

(** The text of an array element, a property value or the whole value.
    In an array [undefined] is written as [null]; a property whose value
    is [undefined] is left out; a host object has no own property. *)
Fixpoint print (v : JsValue) : text :=
  match v with
  | JUndefined | JNull | JNum NaN => list_ascii_of_string "null"
  | JBool true => list_ascii_of_string "true"
  | JBool false => list_ascii_of_string "false"
  | JNum (Int z) => print_int z
  | JStr s => quote s
  | JFile _ => list_ascii_of_string "{}"
  | JArr elems =>
      "["%char ::
      match elems with
      | [] => ["]"%char]
      | x :: l => print x ++ elems_tail print l
      end
  | JObj props => "{"%char :: members print true props
  end.

(** [JSON.stringify(v)]: [None] stands for the result [undefined]. *)
Definition JSON_stringify (v : JsValue) : option string :=
  if is_undefined v then None else Some (string_of_list_ascii (print v)).

(** *** [JSON.parse] *)

Definition is_ws (c : ascii) : bool :=
  existsb (Ascii.eqb c) [" "; "009"; "010"; "013"]%char.

Fixpoint skip_ws (s : text) : text :=
  match s with
  | c :: r => if is_ws c then skip_ws r else s
  | [] => []
  end.

Definition unescape (e : ascii) : option ascii :=
  if Ascii.eqb e dquote then Some dquote
  else if Ascii.eqb e backslash then Some backslash
  else if Ascii.eqb e "/" then Some "/"%char
  else if Ascii.eqb e "b" then Some "008"%char
  else if Ascii.eqb e "t" then Some "009"%char
  else if Ascii.eqb e "n" then Some "010"%char
  else if Ascii.eqb e "f" then Some "012"%char
  else if Ascii.eqb e "r" then Some "013"%char
  else None.

(** The characters of a string literal after its opening quote, and the
    text after its closing quote.  A [\u] escape above [00ff] is outside
    the 8-bit code units of the embedding. *)
Fixpoint parse_chars (s : text) : option (text * text) :=
  match s with
  | [] => None
  | c :: r =>
      if Ascii.eqb c dquote then Some ([], r)
      else if Ascii.eqb c backslash then
        match r with
        | [] => None
        | e :: r1 =>
            if Ascii.eqb e "u" then
              match r1 with
              | h1 :: h2 :: h3 :: h4 :: r2 =>
                  match hex_value h1, hex_value h2, hex_value h3, hex_value h4 with
                  | Some 0%N, Some 0%N, Some a, Some b =>
                      match parse_chars r2 with
                      | Some (cs, r3) => Some (ascii_of_N (16 * a + b) :: cs, r3)
                      | None => None
                      end
                  | _, _, _, _ => None
                  end
              | _ => None
              end
            else
              match unescape e, parse_chars r1 with
              | Some c', Some (cs, r2) => Some (c' :: cs, r2)
              | _, _ => None
              end
        end
      else if (N_of_ascii c <? 32)%N then None
      else
        match parse_chars r with
        | Some (cs, r1) => Some (c :: cs, r1)
        | None => None
        end
  end.

Definition starts_fraction (r : text) : bool :=
  match r with
  | c :: _ => existsb (Ascii.eqb c) ["."; "e"; "E"]%char
  | [] => false
  end.

(** An integer literal.  A literal with a fraction or an exponent denotes
    a number outside the embedding and is not accepted. *)
Definition parse_number (s : text) : option (JsValue * text) :=
  let '(sign, s1) :=
    match s with
    | c :: r => if Ascii.eqb c "-" then (["-"%char], r) else ([], s)
    | [] => ([], s)
    end in
  let '(ds, r) := digits s1 in
  let leading_zero :=
    match ds with
    | d :: _ :: _ => Ascii.eqb d "0"
    | _ => false
    end in
  if leading_zero || starts_fraction r then None
  else
    match NilZero.int_of_string (string_of_list_ascii (sign ++ ds)) with
    | Some d => Some (JNum (Int (Z.of_int d)), r)
    | None => None
    end.

(** What follows [word] in [s], when [s] begins with it. *)
Fixpoint after (word s : text) : option text :=
  match word, s with
  | [], _ => Some s
  | a :: word', b :: s' => if Ascii.eqb a b then after word' s' else None
  | _ :: _, [] => None
  end.

Definition expect (word : string) (v : JsValue) (s : text) : option (JsValue * text) :=
  match after (list_ascii_of_string word) s with
  | Some r => Some (v, r)
  | None => None
  end.

Fixpoint parse_value (fuel : nat) (s : text) : option (JsValue * text) :=
  match fuel with
  | O => None
  | S fuel =>
      match skip_ws s with
      | [] => None
      | c :: r =>
          if Ascii.eqb c "n" then expect "null" JNull (c :: r)
          else if Ascii.eqb c "t" then expect "true" (JBool true) (c :: r)
          else if Ascii.eqb c "f" then expect "false" (JBool false) (c :: r)
          else if Ascii.eqb c dquote then
            match parse_chars r with
            | Some (cs, r1) => Some (JStr (string_of_list_ascii cs), r1)
            | None => None
            end
          else if Ascii.eqb c "[" then
            match skip_ws r with
            | c1 :: r1 =>
                if Ascii.eqb c1 "]" then Some (JArr [], r1)
                else parse_elems fuel r []
            | [] => None
            end
          else if Ascii.eqb c "{" then
            match skip_ws r with
            | c1 :: r1 =>
                if Ascii.eqb c1 "}" then Some (JObj [], r1)
                else parse_members fuel r []
            | [] => None
            end
          else parse_number (c :: r)
      end
  end
with parse_elems (fuel : nat) (s : text) (acc : list JsValue) : option (JsValue * text) :=
  match fuel with
  | O => None
  | S fuel =>
      match parse_value fuel s with
      | Some (v, r) =>
          match skip_ws r with
          | c :: r1 =>
              if Ascii.eqb c "," then parse_elems fuel r1 (v :: acc)
              else if Ascii.eqb c "]" then Some (JArr (rev (v :: acc)), r1)
              else None
          | [] => None
          end
      | None => None
      end
  end
with parse_members (fuel : nat) (s : text) (acc : Obj) : option (JsValue * text) :=
  match fuel with
  | O => None
  | S fuel =>
      match skip_ws s with
      | c :: r =>
          if Ascii.eqb c dquote then
            match parse_chars r with
            | Some (k, r1) =>
                match skip_ws r1 with
                | c2 :: r2 =>
                    if Ascii.eqb c2 ":" then
                      match parse_value fuel r2 with
                      | Some (v, r3) =>
                          let acc' := obj_set (string_of_list_ascii k) v acc in
                          match skip_ws r3 with
                          | c4 :: r4 =>
                              if Ascii.eqb c4 "," then parse_members fuel r4 acc'
                              else if Ascii.eqb c4 "}" then Some (JObj acc', r4)
                              else None
                          | [] => None
                          end
                      | None => None
                      end
                    else None
                | [] => None
                end
            | None => None
            end
          else None
      | [] => None
      end
  end.

(** [JSON.parse(s)]; a text that is not one JSON value throws. *)
Definition JSON_parse (s : string) : Result JsValue :=
  let t := list_ascii_of_string s in
  match parse_value (S (length t)) t with
  | Some (v, r) =>
      match skip_ws r with
      | [] => Ok v
      | _ :: _ => Throw SyntaxError
      end
  | None => Throw SyntaxError
  end.

(** The text after a value that is an array element, a property value
    or the whole text: nothing, or a comma or a closing bracket. *)
Definition closes (rest : text) : bool :=
  match rest with
  | [] => true
  | c :: _ => existsb (Ascii.eqb c) [","; "]"; "}"]%char
  end.

(** One round of the fold in [json_norm]. *)
Definition norm_step (norm : JsValue -> JsValue) (acc : Obj) (kv : string * JsValue) : Obj :=
  if is_undefined (snd kv) then acc
  else obj_set (fst kv) (norm (snd kv)) acc.

(** What survives [JSON.parse(JSON.stringify(v))]. *)
Fixpoint json_norm (v : JsValue) : JsValue :=
  match v with
  | JUndefined | JNum NaN => JNull
  | JFile _ => JObj []
  | JArr elems => JArr (map json_norm elems)
  | JObj props => JObj (fold_left (norm_step json_norm) props [])
  | _ => v
  end.

(** Parsing the text of [v], whatever closes it, gives the normal form
    of [v]. *)
Definition reads_back (v : JsValue) : Prop :=
  forall fuel rest,
    length (print v) < fuel -> closes rest = true ->
    parse_value fuel (print v ++ rest) = Some (json_norm v, rest).

Definition defined_field (kv : string * JsValue) : bool :=
  negb (is_undefined (snd kv)).

(** Plain JSON data: no [undefined], no [NaN], no host object, and
    objects with distinct keys. *)
Fixpoint json_plain (v : JsValue) : bool :=
  match v with
  | JUndefined | JNum NaN | JFile _ => false
  | JArr elems => forallb json_plain elems
  | JObj props =>
      distinct (map fst props) && forallb (fun kv => json_plain (snd kv)) props
  | _ => true
  end.

(** *** The page component *)

Definition STEP_KEY : string := "businessRegistrationStep".
Definition DATA_KEY : string := "businessRegistrationData".

(** The state of [BusinessPage] together with what it acts on: the
    session storage of the tab and the routes pushed to the router, latest
    first.  The page runs in the browser ([window] is defined). *)
Record Page : Type := {
  currentStep : Num;
  formData : JsValue;
  hasRegisteredBusiness : bool;
  sessionStorage : gmap string string;
  pushed : list string
}.

Definition initial : Page :=
  {| currentStep := Int 1; formData := JObj []; hasRegisteredBusiness := false;
     sessionStorage := ∅; pushed := [] |}.

Definition plus (n : Num) (k : Z) : Num :=
  match n with
  | Int z => Int (z + k)
  | NaN => NaN
  end.

(** [setItem] stores the string conversion of its argument. *)
Definition item_text (o : option string) : string := default "undefined" o.

Definition truthy (o : option string) : bool :=
  match o with
  | Some (String _ _) => true
  | _ => false
  end.

Fixpoint map_result {A B : Type} (f : A -> Result B) (l : list A) : Result (list B) :=
  match l with
  | [] => Ok []
  | x :: l' =>
      y ← f x;
      ys ← map_result f l';
      Ok (y :: ys)
  end.

Definition owner_entry (owner : JsValue) : Result JsValue :=
  id ← js_prop owner "id";
  fullName ← js_prop owner "fullName";
  ownership ← js_prop owner "ownership";
  isCEO ← js_prop owner "isCEO";
  birthDate ← js_prop owner "birthDate";
  document ← js_prop owner "document";
  Ok (JObj [("id", id); ("fullName", fullName); ("ownership", ownership);
            ("isCEO", isCEO); ("birthDate", birthDate); ("document", document)]).

Definition nullish (v : JsValue) : bool :=
  match v with
  | JUndefined | JNull => true
  | _ => false
  end.

(** The field of the draft that [handleNext] replaces at a step. *)
Definition merged_field (step : Z) : option string :=
  match step with
  | 1 => Some "country"
  | 2 => Some "package"
  | 3 => Some "company"
  | 4 => Some "owner"
  | 5 => Some "address"
  | _ => None
  end%Z.

(** Step data from which the properties that a step reads can be read:
    an array of owners at step 4, anything but [undefined] and [null] at
    the other steps with a form. *)
Definition well_shaped (step : Z) (stepData : JsValue) : bool :=
  match step with
  | 4 =>
      match stepData with
      | JArr owners => forallb (fun owner => negb (nullish owner)) owners
      | _ => false
      end
  | 6 => true
  | _ => negb (nullish stepData)
  end%Z.

(** The updater that [handleNext] hands to [setFormData]: a copy of the
    previous data with the field of the current step replaced. *)
Definition merge (step : Num) (prev stepData : JsValue) : Result Obj :=
  let newData := assign [] (own_entries prev) in
  match step with
  | Int 1 =>
      name ← js_prop stepData "name";
      Ok (obj_set "country" (JObj [("name", name)]) newData)
  | Int 2 =>
      name ← js_prop stepData "name";
      price ← js_prop stepData "price";
      Ok (obj_set "package" (JObj [("name", name); ("price", price)]) newData)
  | Int 3 =>
      name ← js_prop stepData "name";
      type ← js_prop stepData "type";
      industry ← js_prop stepData "industry";
      Ok (obj_set "company"
            (JObj [("name", name); ("type", type); ("industry", industry)]) newData)
  | Int 4 =>
      match stepData with
      | JArr owners =>
          entries ← map_result owner_entry owners;
          Ok (obj_set "owner" (JArr entries) newData)
      | _ => Throw TypeError
      end
  | Int 5 =>
      street ← js_prop stepData "street";
      city ← js_prop stepData "city";
      state ← js_prop stepData "state";
      postalCode ← js_prop stepData "postalCode";
      country ← js_prop stepData "country";
      Ok (obj_set "address"
            (JObj [("street", street); ("city", city); ("state", state);
                   ("postalCode", postalCode); ("country", country)]) newData)
  | _ => Ok (assign newData (own_entries stepData))
  end.

Definition handleNext (page : Page) (stepData : JsValue) : Result Page :=
  newData ← merge (currentStep page) (formData page) stepData;
  let newStep := plus (currentStep page) 1 in
  Ok {| currentStep := newStep;
        formData := JObj newData;
        hasRegisteredBusiness := hasRegisteredBusiness page;
        sessionStorage :=
          <[STEP_KEY := toString newStep]>
            (<[DATA_KEY := item_text (JSON_stringify (JObj newData))]>
               (sessionStorage page));
        pushed := pushed page |}.

Definition handleBack (page : Page) : Page :=
  match currentStep page with
  | Int 1 =>
      {| currentStep := currentStep page;
         formData := formData page;
         hasRegisteredBusiness := hasRegisteredBusiness page;
         sessionStorage := sessionStorage page;
         pushed := "/dashboard/business" :: pushed page |}
  | prev =>
      let newStep := plus prev (-1) in
      {| currentStep := newStep;
         formData := formData page;
         hasRegisteredBusiness := hasRegisteredBusiness page;
         sessionStorage := <[STEP_KEY := toString newStep]> (sessionStorage page);
         pushed := pushed page |}
  end.

Definition handleEdit (page : Page) (step : Num) : Page :=
  {| currentStep := step;
     formData := formData page;
     hasRegisteredBusiness := hasRegisteredBusiness page;
     sessionStorage := <[STEP_KEY := toString step]> (sessionStorage page);
     pushed := pushed page |}.

Definition handlePaymentComplete (page : Page) : Page :=
  {| currentStep := Int 8;
     formData := formData page;
     hasRegisteredBusiness := true;
     sessionStorage := delete STEP_KEY (delete DATA_KEY (sessionStorage page));
     pushed := pushed page |}.

(** The [onNext] of the Review step: [() => setCurrentStep(7)]. *)
Definition reviewNext (page : Page) : Page :=
  {| currentStep := Int 7;
     formData := formData page;
     hasRegisteredBusiness := hasRegisteredBusiness page;
     sessionStorage := sessionStorage page;
     pushed := pushed page |}.

(** The [onNext] handler that [renderRegistrationStep] gives to the form
    of the current step; the Payment step and the final screen have
    none. *)
Definition onNext (page : Page) (stepData : JsValue) : option (Result Page) :=
  match currentStep page with
  | Int 1 | Int 2 | Int 3 | Int 4 | Int 5 => Some (handleNext page stepData)
  | Int 6 => Some (Ok (reviewNext page))
  | _ => None
  end.

(** The effect that runs when the page is mounted: it reads both entries
    of the session storage. *)
Definition restore (page : Page) : Result Page :=
  let savedStep := sessionStorage page !! STEP_KEY in
  let savedData := sessionStorage page !! DATA_KEY in
  let step := if truthy savedStep then parseInt (item_text savedStep)
              else currentStep page in
  data ← (if truthy savedData then JSON_parse (item_text savedData)
          else Ok (formData page));
  Ok {| currentStep := step;
        formData := data;
        hasRegisteredBusiness := hasRegisteredBusiness page;
        sessionStorage := sessionStorage page;
        pushed := if truthy savedStep || truthy savedData
                  then "/dashboard/business?register=true" :: pushed page
                  else pushed page |}.

(** The two writes that follow every step of [handleNext], and the read
    that [restore] performs on a freshly mounted page. *)
Definition save (storage : gmap string string) (step : Num) (data : JsValue)
    : gmap string string :=
  <[STEP_KEY := toString step]>
    (<[DATA_KEY := item_text (JSON_stringify data)]> storage).

Definition load (storage : gmap string string) : Result (Num * JsValue) :=
  page ← restore {| currentStep := Int 1; formData := JObj [];
                    hasRegisteredBusiness := false;
                    sessionStorage := storage; pushed := [] |};
  Ok (currentStep page, formData page).

(** The effect on [showRegistration]: while the registration view is
    shown, the current step is written to the session storage. *)
Definition showRegistrationEffect (showRegistration : bool) (page : Page) : Page :=
  if showRegistration then
    {| currentStep := currentStep page;
       formData := formData page;
       hasRegisteredBusiness := hasRegisteredBusiness page;
       sessionStorage :=
         <[STEP_KEY := toString (currentStep page)]> (sessionStorage page);
       pushed := pushed page |}
  else page.

(** The other handlers that [renderRegistrationStep] gives to the form of
    the current step: [onBack] at the steps 2 to 7, [onEdit] at the Review
    step, [onComplete] at the Payment step. *)
Definition onBack (page : Page) : option Page :=
  match currentStep page with
  | Int 2 | Int 3 | Int 4 | Int 5 | Int 6 | Int 7 => Some (handleBack page)
  | _ => None
  end.

Definition onEdit (page : Page) (step : Num) : option Page :=
  match currentStep page with
  | Int 6 => Some (handleEdit page step)
  | _ => None
  end.

Definition onComplete (page : Page) : option Page :=
  match currentStep page with
  | Int 7 => Some (handlePaymentComplete page)
  | _ => None
  end.

(** What the form of the current step can ask of the page, and the
    handler that answers; [None] when the step has no such handler. *)
Inductive Event : Type :=
| Next (stepData : JsValue)
| Back
| Edit (step : Num)
| Complete.

Definition fire (page : Page) (ev : Event) : option (Result Page) :=
  match ev with
  | Next stepData => onNext page stepData
  | Back => Ok <$> onBack page
  | Edit step => Ok <$> onEdit page step
  | Complete => Ok <$> onComplete page
  end.

(** The session storage holds the current step, the text of the current
    draft. *)
Definition step_saved (page : Page) : Prop :=
  sessionStorage page !! STEP_KEY = Some (toString (currentStep page)).

Definition data_saved (page : Page) : Prop :=
  sessionStorage page !! DATA_KEY
  = Some (item_text (JSON_stringify (formData page))).

(** The step data that [handleNext] can read at a step: anything but
    [undefined] and [null] at the steps 1, 2, 3 and 5, an array of such
    owners at step 4, anything at all elsewhere. *)
Definition accepts (step : Num) (stepData : JsValue) : bool :=
  match step with
  | Int 1 | Int 2 | Int 3 | Int 5 => negb (nullish stepData)
  | Int 4 =>
      match stepData with
      | JArr owners => forallb (fun owner => negb (nullish owner)) owners
      | _ => false
      end
  | _ => true
  end.

(** The page as it is mounted in a tab with the given session storage. *)
Definition mounted (storage : gmap string string) : Page :=
  {| currentStep := Int 1; formData := JObj []; hasRegisteredBusiness := false;
     sessionStorage := storage; pushed := [] |}.

(** The properties that [handleNext] copies from an owner at step 4. *)
Definition owner_keys : list string :=
  ["id"; "fullName"; "ownership"; "isCEO"; "birthDate"; "document"].

(** The [amount] that the Payment step is given:
    [formData.package?.price || 0]. *)
Definition paymentAmount (formData : JsValue) : Result JsValue :=
  package ← js_prop formData "package";
  price ← (if nullish package then Ok JUndefined else js_prop package "price");
  Ok (if js_truthy price then price else JNum (Int 0)).

End Wizard.

(** ** Checkout proxy (the create-checkout-session route) *)

Module Checkout.

Record CheckoutRequest : Type := {
  amount : float;
  businessId : string;
  userId : string
}.

Record PriceData : Type := {
  currency : string;
  product_name : string;
  unit_amount : float
}.

Record LineItem : Type := {
  price_data : PriceData;
  quantity : Z
}.

Record SessionParams : Type := {
  payment_method_types : list string;
  line_items : list LineItem;
  mode : string;
  success_url : string;
  cancel_url : string;
  metadata : list (string * string)
}.

Record Response : Type := {
  status : Z;
  body : Obj
}.

Section Route.

(** [process.env.NEXT_PUBLIC_BASE_URL]. *)
Variable base_url : string.

(** [stripe.checkout.sessions.create], giving the [id] of the session or
    throwing the error of the provider. *)
Variable create : SessionParams -> Result string.

Definition session_params (r : CheckoutRequest) : SessionParams :=
  {| payment_method_types := ["card"];
     line_items :=
       [{| price_data :=
             {| currency := "usd";
                product_name := "Business Registration";
                unit_amount := PrimFloat.mul (amount r) 100%float |};
           quantity := 1 |}];
     mode := "payment";
     success_url :=
       String.append base_url
         "/dashboard/business/success?session_id={CHECKOUT_SESSION_ID}";
     cancel_url := String.append base_url "/dashboard/business?payment=cancel";
     metadata := [("businessId", businessId r); ("userId", userId r)] |}.

(** [NextResponse.json(body, { status })]; the status defaults to 200. *)
Definition json (body : Obj) (status : Z) : Response :=
  {| status := status; body := body |}.

(** [request] is the outcome of [req.json()]. *)
Definition POST (request : Result CheckoutRequest) : Response :=
  match (r ← request; create (session_params r)) with
  | Ok sessionId => json [("sessionId", JStr sessionId)] 200
  | Throw _ => json [("error", JStr "Error creating checkout session")] 500
  end.

End Route.

End Checkout.

(** * Properties *)

(** ** Property lists and sanitized values *)

Module JsFacts.

(** *** Property lists *)

Lemma obj_get_set_eq key value props :
  obj_get key (obj_set key value props) = Some value.
Proof.
  induction props as [|[k v] rest IH]; simpl.
  - by rewrite String.eqb_refl.
  - destruct (String.eqb k key) eqn:E; simpl; rewrite E; [done | apply IH].
Qed.

Lemma obj_get_set_ne key key' value props :
  key <> key' -> obj_get key' (obj_set key value props) = obj_get key' props.
Proof.
  intros Hne. induction props as [|[k v] rest IH]; simpl.
  - apply String.eqb_neq in Hne. by rewrite Hne.
  - destruct (String.eqb k key) eqn:E; simpl.
    + apply String.eqb_eq in E. subst k.
      apply String.eqb_neq in Hne. by rewrite Hne.
    + destruct (String.eqb k key'); [done | apply IH].
Qed.

Lemma obj_set_fresh key value props :
  key ∉ map fst props -> obj_set key value props = props ++ [(key, value)].
Proof.
  induction props as [|[k v] rest IH]; simpl; intros Hnin; [done|].
  apply not_elem_of_cons in Hnin as [Hne Hnin].
  destruct (String.eqb k key) eqn:E.
  - apply String.eqb_eq in E. congruence.
  - by rewrite IH.
Qed.

Lemma obj_set_keys key value props k :
  k ∈ map fst (obj_set key value props) <-> k = key \/ k ∈ map fst props.
Proof.
  induction props as [|[k0 v0] rest IH]; simpl.
  - rewrite list_elem_of_singleton, elem_of_nil. tauto.
  - destruct (String.eqb k0 key) eqn:E; simpl.
    + apply String.eqb_eq in E. subst k0. rewrite elem_of_cons. tauto.
    + rewrite !elem_of_cons, IH. tauto.
Qed.

Lemma obj_set_NoDup key value props :
  NoDup (map fst props) -> NoDup (map fst (obj_set key value props)).
Proof.
  induction props as [|[k0 v0] rest IH]; simpl; intros Hnd.
  - apply NoDup_singleton.
  - apply NoDup_cons in Hnd as [Hnin Hnd].
    destruct (String.eqb k0 key) eqn:E; simpl.
    + by apply NoDup_cons.
    + apply NoDup_cons. split; [|by apply IH].
      rewrite obj_set_keys. intros [->|Hin]; [|done].
      by rewrite String.eqb_refl in E.
Qed.

Lemma obj_set_Forall (Q : JsValue -> Prop) key value props :
  Forall (fun kv => Q (snd kv)) props -> Q value ->
  Forall (fun kv => Q (snd kv)) (obj_set key value props).
Proof.
  intros Hall Hv. induction Hall as [|[k0 v0] rest H0 Hall IH]; simpl.
  - by constructor.
  - destruct (String.eqb k0 key); constructor; done.
Qed.

Lemma assign_app target source :
  NoDup (map fst (target ++ source)) -> assign target source = target ++ source.
Proof.
  unfold assign. revert target.
  induction source as [|[k v] rest IH]; simpl; intros target Hnd.
  - by rewrite app_nil_r.
  - rewrite obj_set_fresh.
    + rewrite IH; rewrite <- app_assoc; done.
    + rewrite map_app in Hnd. simpl in Hnd.
      apply NoDup_app in Hnd as (_ & Hdisj & _).
      intros Hin. apply (Hdisj k Hin). by left.
Qed.

Lemma assign_NoDup target source :
  NoDup (map fst target) -> NoDup (map fst (assign target source)).
Proof.
  unfold assign. revert target.
  induction source as [|[k v] rest IH]; simpl; intros target Hnd; [done|].
  by apply IH, obj_set_NoDup.
Qed.

Lemma assign_Forall (Q : JsValue -> Prop) target source :
  Forall (fun kv => Q (snd kv)) target ->
  Forall (fun kv => Q (snd kv)) source ->
  Forall (fun kv => Q (snd kv)) (assign target source).
Proof.
  unfold assign. intros Ht Hs. revert target Ht.
  induction Hs as [|[k v] rest H0 Hs IH]; simpl; intros target Ht; [done|].
  by apply IH, obj_set_Forall.
Qed.

Lemma assign_get_notin target source key :
  key ∉ map fst source -> obj_get key (assign target source) = obj_get key target.
Proof.
  unfold assign. revert target.
  induction source as [|[k v] rest IH]; simpl; intros target Hnin; [done|].
  apply not_elem_of_cons in Hnin as [Hne Hnin].
  rewrite IH by done. by apply obj_get_set_ne.
Qed.

Lemma distinct_NoDup keys : distinct keys = true <-> NoDup keys.
Proof.
  induction keys as [|k rest IH]; simpl.
  - split; [constructor | done].
  - rewrite andb_true_iff, negb_true_iff, NoDup_cons, IH.
    assert (existsb (String.eqb k) rest = false <-> k ∉ rest) as ->; [|done].
    rewrite <- not_true_iff_false, existsb_exists.
    split; intros H Hin; apply H.
    + exists k. rewrite String.eqb_refl. split; [|done]. by apply list_elem_of_In.
    + destruct Hin as (x & Hin & Heq). apply String.eqb_eq in Heq. subst x.
      by apply list_elem_of_In.
Qed.

Lemma sanitized_obj props :
  sanitized (JObj props) = true <->
  NoDup (map fst props)
  /\ Forall (fun kv => is_undefined (snd kv) = false /\ sanitized (snd kv) = true) props.
Proof.
  simpl. rewrite andb_true_iff, distinct_NoDup, forallb_forall, Forall_forall.
  split; intros [Hnd Hall]; (split; [done|]); intros kv Hin.
  - apply list_elem_of_In, Hall in Hin.
    apply andb_true_iff in Hin as [Hu Hs]. by apply negb_true_iff in Hu.
  - apply list_elem_of_In, Hall in Hin as [Hu Hs]. by rewrite Hu, Hs.
Qed.

Lemma sanitized_no_undefined_field v :
  sanitized v = true -> undefined_field v = false.
Proof.
  induction v as [| | | | | |elems IH|props IH] using JsValue_deep_ind;
    simpl; try done.
  - intros Hs. apply not_true_iff_false. rewrite existsb_exists.
    intros (x & Hin & Hx). rewrite forallb_forall in Hs.
    rewrite Forall_forall in IH. apply list_elem_of_In in Hin as Hin'.
    rewrite (IH x Hin' (Hs x Hin)) in Hx. done.
  - intros Hs. apply andb_true_iff in Hs as [_ Hs].
    apply not_true_iff_false. rewrite existsb_exists.
    intros (x & Hin & Hx). rewrite forallb_forall in Hs.
    rewrite Forall_forall in IH. apply list_elem_of_In in Hin as Hin'.
    specialize (Hs x Hin). apply andb_true_iff in Hs as [Hu Hs].
    apply negb_true_iff in Hu. rewrite Hu, (IH x Hin' Hs) in Hx. done.
Qed.


Lemma obj_get_notin key props : key ∉ map fst props -> obj_get key props = None.
Proof.
  induction props as [|[k v] rest IH]; simpl; intros Hnin; [done|].
  apply not_elem_of_cons in Hnin as [Hne Hnin].
  destruct (String.eqb k key) eqn:E; [|by apply IH].
  apply String.eqb_eq in E. congruence.
Qed.

Lemma obj_get_in key props v : obj_get key props = Some v -> (key, v) ∈ props.
Proof.
  induction props as [|[k w] rest IH]; simpl; [done|].
  destruct (String.eqb k key) eqn:E.
  - apply String.eqb_eq in E. intros [= ->]. subst. by left.
  - intros H. right. by apply IH.
Qed.

Lemma existsb_eqb_notin key keys :
  existsb (String.eqb key) keys = false <-> key ∉ keys.
Proof.
  rewrite <- not_true_iff_false, existsb_exists.
  split; intros H Hin; apply H.
  - exists key. rewrite String.eqb_refl. split; [|done]. by apply list_elem_of_In.
  - destruct Hin as (x & Hin & Heq). apply String.eqb_eq in Heq. subst x.
    by apply list_elem_of_In.
Qed.

Lemma assign_keys target source k :
  k ∈ map fst (assign target source) -> k ∈ map fst target \/ k ∈ map fst source.
Proof.
  unfold assign. revert target.
  induction source as [|[k0 v0] rest IH]; simpl; intros target Hin; [by left|].
  apply IH in Hin as [Hin|Hin]; [|right; by right].
  apply obj_set_keys in Hin as [->|Hin]; [right; by left | by left].
Qed.

Lemma assign_nil_NoDup source : NoDup (map fst (assign [] source)).
Proof. apply assign_NoDup. constructor. Qed.

Lemma assign_get target source key :
  NoDup (map fst source) ->
  obj_get key (assign target source)
  = match obj_get key source with
    | Some v => Some v
    | None => obj_get key target
    end.
Proof.
  unfold assign. revert target.
  induction source as [|[k v] rest IH]; simpl; intros target Hnd; [done|].
  apply NoDup_cons in Hnd as [Hnin Hnd]. rewrite IH by done.
  destruct (String.eqb k key) eqn:E.
  - apply String.eqb_eq in E. subst k.
    by rewrite (obj_get_notin key rest), obj_get_set_eq.
  - apply String.eqb_neq in E. rewrite obj_get_set_ne by done.
    by destruct (obj_get key rest).
Qed.

Lemma obj_set_id key value props :
  obj_get key props = Some value -> obj_set key value props = props.
Proof.
  induction props as [|[k v] rest IH]; simpl; [done|].
  destruct (String.eqb k key); [by intros [= ->] | intros H; by rewrite IH].
Qed.

Lemma assign_id target source :
  Forall (fun kv => obj_get (fst kv) target = Some (snd kv)) source ->
  assign target source = target.
Proof.
  unfold assign. induction 1 as [|[k v] rest H0 Hall IH]; simpl; [done|].
  simpl in H0. by rewrite obj_set_id.
Qed.

Lemma obj_get_elem key value props :
  NoDup (map fst props) -> (key, value) ∈ props -> obj_get key props = Some value.
Proof.
  induction props as [|[k v] rest IH]; simpl; intros Hnd Hin.
  - by apply elem_of_nil in Hin.
  - apply NoDup_cons in Hnd as [Hnin Hnd].
    apply elem_of_cons in Hin as [[= <- <-]|Hin].
    + by rewrite String.eqb_refl.
    + destruct (String.eqb k key) eqn:E; [|by apply IH].
      apply String.eqb_eq in E. subst k. exfalso. apply Hnin.
      apply list_elem_of_fmap. by exists (key, value).
Qed.

(** Assigning the same properties a second time changes nothing. *)
Lemma assign_idem target source :
  NoDup (map fst source) -> assign (assign target source) source = assign target source.
Proof.
  intros Hnd. apply assign_id, Forall_forall. intros [k v] Hin. simpl.
  rewrite assign_get by done. by rewrite (obj_get_elem k v).
Qed.

Lemma contains_undefined_obj props :
  contains_undefined (JObj props) = false
  <-> Forall (fun kv => contains_undefined (snd kv) = false) props.
Proof.
  simpl. rewrite <- not_true_iff_false, existsb_exists, Forall_forall.
  split.
  - intros H kv Hin. apply not_true_iff_false. intros Hc. apply H.
    exists kv. split; [by apply list_elem_of_In | done].
  - intros H (kv & Hin & Hc). apply list_elem_of_In, H in Hin. congruence.
Qed.

(** Sanitized data in which no array holds [undefined] holds no
    [undefined] at all. *)
Lemma sanitized_no_undefined v :
  sanitized v = true -> elements_defined v = true -> is_undefined v = false ->
  contains_undefined v = false.
Proof.
  induction v as [| | | | | |elems IH|props IH] using JsValue_deep_ind;
    simpl; try done.
  - intros Hs He _. apply not_true_iff_false. rewrite existsb_exists.
    intros (x & Hin & Hx). rewrite forallb_forall in Hs, He.
    rewrite Forall_forall in IH. apply list_elem_of_In in Hin as Hin'.
    specialize (He x Hin). apply andb_true_iff in He as [Hu He].
    apply negb_true_iff in Hu. rewrite (IH x Hin' (Hs x Hin) He Hu) in Hx. done.
  - intros Hs He _. apply andb_true_iff in Hs as [_ Hs].
    apply not_true_iff_false. rewrite existsb_exists.
    intros (x & Hin & Hx). rewrite forallb_forall in Hs, He.
    rewrite Forall_forall in IH. apply list_elem_of_In in Hin as Hin'.
    specialize (Hs x Hin). apply andb_true_iff in Hs as [Hu Hs].
    apply negb_true_iff in Hu. rewrite (IH x Hin' Hs (He x Hin) Hu) in Hx. done.
Qed.

Lemma contains_undefined_elements v :
  contains_undefined v = false -> elements_defined v = true.
Proof.
  induction v as [| | | | | |elems IH|props IH] using JsValue_deep_ind;
    simpl; try done.
  - intros Hc. rewrite forallb_forall. intros x Hin.
    rewrite Forall_forall in IH. apply list_elem_of_In in Hin as Hin'.
    assert (contains_undefined x = false) as Hx.
    { apply not_true_iff_false. intros Hx. apply not_true_iff_false in Hc.
      apply Hc, existsb_exists. eauto. }
    rewrite (IH x Hin' Hx). by destruct x.
  - intros Hc. rewrite forallb_forall. intros x Hin.
    rewrite Forall_forall in IH. apply list_elem_of_In in Hin as Hin'.
    apply IH; [done|].
    apply not_true_iff_false. intros Hx. apply not_true_iff_false in Hc.
    apply Hc, existsb_exists. eauto.
Qed.

End JsFacts.

Import JsFacts.

(** ** Data-access layer *)

Module FirebaseFacts.

Import Firebase.

(** *** What [cleanFirestoreData] establishes *)

Lemma clean_obj props :
  cleanFirestoreData (JObj props) = JObj (fold_left clean_step props []).
Proof. reflexivity. Qed.

Lemma is_undefined_clean v : is_undefined (cleanFirestoreData v) = is_undefined v.
Proof. by destruct v. Qed.

Lemma clean_fold_ok props acc :
  Forall (fun kv => sanitized (cleanFirestoreData (snd kv)) = true) props ->
  NoDup (map fst acc) -> Forall field_ok acc ->
  NoDup (map fst (fold_left clean_step props acc))
  /\ Forall field_ok (fold_left clean_step props acc).
Proof.
  intros Hall. revert acc.
  induction Hall as [|[k v] rest Hv Hall IH]; simpl; intros acc Hnd Hacc; [done|].
  apply IH; unfold clean_step; simpl in *;
    destruct (is_undefined v) eqn:Eu; try done.
  - by apply obj_set_NoDup.
  - apply (obj_set_Forall (fun v => is_undefined v = false /\ sanitized v = true));
      [done|]. by rewrite is_undefined_clean.
Qed.

Lemma clean_sanitized v : sanitized (cleanFirestoreData v) = true.
Proof.
  induction v as [| | | | | |elems IH|props IH] using JsValue_deep_ind; try done.
  - simpl. rewrite forallb_forall. intros x Hin.
    apply in_map_iff in Hin as (y & <- & Hin).
    rewrite Forall_forall in IH. by apply IH, list_elem_of_In.
  - rewrite clean_obj. apply sanitized_obj.
    apply clean_fold_ok; [done | constructor | constructor].
Qed.

Lemma clean_fold_id props acc :
  Forall (fun kv => sanitized (snd kv) = true ->
                    cleanFirestoreData (snd kv) = snd kv) props ->
  NoDup (map fst (acc ++ props)) -> Forall field_ok props ->
  fold_left clean_step props acc = acc ++ props.
Proof.
  intros Hall. revert acc.
  induction Hall as [|[k v] rest Hv Hall IH]; simpl; intros acc Hnd Hok.
  - by rewrite app_nil_r.
  - apply Forall_cons in Hok as [[Hu Hs] Hok]. simpl in *.
    unfold clean_step at 2. simpl. rewrite Hu, (Hv Hs).
    rewrite obj_set_fresh.
    + rewrite IH; [by rewrite <- app_assoc | by rewrite <- app_assoc | done].
    + rewrite map_app in Hnd. simpl in Hnd.
      apply NoDup_app in Hnd as (_ & Hdisj & _).
      intros Hin. apply (Hdisj k Hin). by left.
Qed.

(** Cleaning is the identity on sanitized data. *)
Lemma clean_sanitized_id v : sanitized v = true -> cleanFirestoreData v = v.
Proof.
  induction v as [| | | | | |elems IH|props IH] using JsValue_deep_ind; try done.
  - simpl. intros Hs. f_equal. rewrite forallb_forall in Hs.
    rewrite Forall_forall in IH. rewrite <- (map_id elems) at 2.
    apply map_ext_in. intros x Hin. apply IH; [by apply list_elem_of_In | auto].
  - intros Hs. apply sanitized_obj in Hs as [Hnd Hok].
    rewrite clean_obj. f_equal. by apply (clean_fold_id props []).
Qed.


Lemma clean_fold_Forall (Q : JsValue -> Prop) props acc :
  Forall (fun kv => is_undefined (snd kv) = false ->
                    Q (cleanFirestoreData (snd kv))) props ->
  Forall (fun kv => Q (snd kv)) acc ->
  Forall (fun kv => Q (snd kv)) (fold_left clean_step props acc).
Proof.
  intros Hall. revert acc.
  induction Hall as [|[k v] rest Hv Hall IH]; simpl; intros acc Hacc; [done|].
  apply IH. unfold clean_step. simpl in *.
  destruct (is_undefined v); [done|]. apply obj_set_Forall; auto.
Qed.

Lemma clean_fold_keys props acc k :
  k ∈ map fst (fold_left clean_step props acc) ->
  k ∈ map fst props \/ k ∈ map fst acc.
Proof.
  revert acc. induction props as [|[k0 v0] rest IH]; simpl; intros acc Hin;
    [by right|].
  apply IH in Hin as [Hin|Hin]; [left; by right|].
  unfold clean_step in Hin. simpl in Hin. destruct (is_undefined v0); [by right|].
  apply obj_set_keys in Hin as [->|Hin]; [left; by left | by right].
Qed.

(** Reading a field of a cleaned object. *)
Lemma clean_fold_get props acc key :
  NoDup (map fst props) ->
  obj_get key (fold_left clean_step props acc)
  = match obj_get key props with
    | Some v => if is_undefined v then obj_get key acc
                else Some (cleanFirestoreData v)
    | None => obj_get key acc
    end.
Proof.
  revert acc. induction props as [|[k v] rest IH]; simpl; intros acc Hnd; [done|].
  apply NoDup_cons in Hnd as [Hnin Hnd]. rewrite IH by done.
  unfold clean_step. simpl.
  destruct (String.eqb k key) eqn:E.
  - apply String.eqb_eq in E. subst k. rewrite (obj_get_notin key rest) by done.
    destruct (is_undefined v); [done | apply obj_get_set_eq].
  - apply String.eqb_neq in E.
    assert (obj_get key (if is_undefined v then acc
                         else obj_set k (cleanFirestoreData v) acc)
            = obj_get key acc) as ->.
    { destruct (is_undefined v); [done | by apply obj_get_set_ne]. }
    done.
Qed.

Lemma clean_elements_defined v :
  elements_defined v = true -> elements_defined (cleanFirestoreData v) = true.
Proof.
  induction v as [| | | | | |elems IH|props IH] using JsValue_deep_ind; try done.
  - simpl. rewrite !forallb_forall. intros He x Hin.
    apply in_map_iff in Hin as (y & <- & Hin).
    specialize (He y Hin). apply andb_true_iff in He as [Hu He].
    rewrite is_undefined_clean, Hu. simpl.
    rewrite Forall_forall in IH. by apply IH; [apply list_elem_of_In|].
  - intros He. rewrite clean_obj. simpl in *.
    rewrite forallb_forall in He. rewrite forallb_forall.
    assert (Forall (fun kv => elements_defined (snd kv) = true)
              (fold_left clean_step props [])) as Hall.
    { apply (clean_fold_Forall (fun v => elements_defined v = true));
        [|constructor].
      rewrite Forall_forall in IH. apply Forall_forall. intros kv Hin _.
      apply IH; [done|]. by apply He, list_elem_of_In. }
    rewrite Forall_forall in Hall. intros kv Hin.
    by apply Hall, list_elem_of_In.
Qed.

(** A cleaned object holds no [undefined] unless some array of the
    original has [undefined] as an element. *)
Lemma clean_no_undefined props :
  elements_defined (JObj props) = true ->
  contains_undefined (cleanFirestoreData (JObj props)) = false.
Proof.
  intros He. apply sanitized_no_undefined;
    [apply clean_sanitized | by apply clean_elements_defined | done].
Qed.

Lemma elements_defined_obj props :
  elements_defined (JObj props) = true
  <-> Forall (fun kv => elements_defined (snd kv) = true) props.
Proof.
  simpl. rewrite forallb_forall, Forall_forall.
  split; intros H kv Hin; apply H; by apply list_elem_of_In.
Qed.

Lemma storable_spec doc :
  storable doc = true
  <-> sanitized (JObj doc) = true /\ contains_undefined (JObj doc) = false.
Proof. unfold storable. rewrite andb_true_iff, negb_true_iff. done. Qed.

Lemma clean_fields_storable props :
  contains_undefined (cleanFirestoreData (JObj props)) = false ->
  storable (fold_left clean_step props []) = true.
Proof.
  intros Hc. apply storable_spec. rewrite <- clean_obj. split; [|done].
  apply clean_sanitized.
Qed.

Lemma assign_storable old fields :
  storable old = true -> storable fields = true ->
  storable (assign old fields) = true.
Proof.
  rewrite !storable_spec, !sanitized_obj, !contains_undefined_obj.
  intros [[Hnd1 Hok1] Hc1] [[Hnd2 Hok2] Hc2]. split; [split|].
  - by apply assign_NoDup.
  - by apply (assign_Forall
                (fun v => is_undefined v = false /\ sanitized v = true)).
  - by apply (assign_Forall (fun v => contains_undefined v = false)).
Qed.

Section DataAccessFacts.

Variable serverTimestamp : JsValue.

Lemma formatted_draft_NoDup businessData :
  NoDup (map fst (formatted_draft serverTimestamp businessData)).
Proof. unfold formatted_draft. do 3 apply obj_set_NoDup. apply assign_nil_NoDup. Qed.

Lemma formatted_draft_elements businessData :
  elements_defined (JObj businessData) = true ->
  elements_defined serverTimestamp = true ->
  elements_defined (JObj (formatted_draft serverTimestamp businessData)) = true.
Proof.
  rewrite !elements_defined_obj. intros HD Hts. unfold formatted_draft.
  do 3 (apply (obj_set_Forall (fun v => elements_defined v = true)); [|done]).
  by apply (assign_Forall (fun v => elements_defined v = true)); [constructor|].
Qed.

Lemma saveBusinessDraft_eq db newId userId businessData :
  saveBusinessDraft serverTimestamp db newId userId businessData
  = if contains_undefined (cleanFirestoreData (JObj (formatted_draft serverTimestamp businessData)))
    then (db, Throw (Error "invalid-argument"))
    else (<[(userId, newId) := fold_left clean_step (formatted_draft serverTimestamp businessData) []]> db,
          Ok newId).
Proof.
  unfold saveBusinessDraft, setDoc. fold (formatted_draft serverTimestamp businessData).
  rewrite clean_obj. rewrite <- clean_obj.
  by destruct (contains_undefined _).
Qed.

(** C1.  [saveBusinessDraft] writes the cleaned draft: the document reads
    back through [getBusinessDraft], its status is ["draft"], and it holds
    no [undefined] at any depth.  The only draft that is not written is
    one in which [undefined] is itself an element of an array, which
    cleaning keeps and the store refuses.  Cleaning removes the
    [undefined]-valued properties at every depth, inside arrays and inside
    nested objects. *)
Theorem saveBusinessDraft_written_clean db newId userId businessData :
  ((exists doc,
       saveBusinessDraft serverTimestamp db newId userId businessData
       = (<[(userId, newId) := doc]> db, Ok newId)
       /\ getBusinessDraft (<[(userId, newId) := doc]> db) userId newId
          = Ok (JObj doc)
       /\ obj_get "status" doc = Some (JStr "draft")
       /\ contains_undefined (JObj doc) = false)
   \/ (saveBusinessDraft serverTimestamp db newId userId businessData
       = (db, Throw (Error "invalid-argument"))
       /\ elements_defined (JObj businessData) && elements_defined serverTimestamp
          = false))
  /\ (forall v, undefined_field (cleanFirestoreData v) = false).
Proof.
  split; [|intros v; apply sanitized_no_undefined_field, clean_sanitized].
  rewrite saveBusinessDraft_eq.
  destruct (contains_undefined _) eqn:Hc.
  - right. split; [done|]. apply not_true_iff_false. intros He.
    apply andb_true_iff in He as [HD Hts].
    rewrite clean_no_undefined in Hc; [done|].
    by apply formatted_draft_elements.
  - left. eexists. split; [done|]. split_and!.
    + unfold getBusinessDraft. by rewrite lookup_insert_eq.
    + rewrite clean_fold_get by apply formatted_draft_NoDup.
      unfold formatted_draft at 1. by rewrite obj_get_set_eq.
    + by rewrite <- clean_obj.
Qed.

(** *** Updates *)

Lemma updateDoc_clean db ref props a :
  commit db (updateDoc db ref (cleanFirestoreData (JObj props))) a
  = update_outcome db ref props a.
Proof.
  unfold updateDoc, update_outcome. rewrite clean_obj. rewrite <- clean_obj.
  destruct (contains_undefined _); [done|]. by destruct (db !! ref).
Qed.

Lemma completeBusinessRegistration_eq db now userId businessId paymentDetails :
  completeBusinessRegistration db now userId businessId paymentDetails
  = update_outcome db (userId, businessId) (payment_update now paymentDetails)
      businessId.
Proof. apply updateDoc_clean. Qed.

Lemma updateBusiness_eq db userId businessId updateData :
  updateBusiness serverTimestamp db userId businessId updateData
  = update_outcome db (userId, businessId)
      (obj_set "updatedAt" serverTimestamp (assign [] updateData)) businessId.
Proof. apply updateDoc_clean. Qed.

Lemma update_outcome_store_ok db ref props a :
  store_ok db -> store_ok (fst (update_outcome db ref props a)).
Proof.
  intros Hok. unfold update_outcome.
  destruct (contains_undefined _) eqn:Hc; [done|].
  destruct (db !! ref) as [old|] eqn:Hold; [|done]. simpl.
  apply map_Forall_insert_2; [|done].
  apply assign_storable; [by apply (Hok ref) | by apply clean_fields_storable].
Qed.

Lemma perform_store_ok db op :
  store_ok db -> store_ok (fst (perform serverTimestamp db op)).
Proof.
  intros Hok. destruct op as [newId userId D|userId businessId U|now userId businessId pd];
    simpl.
  - rewrite saveBusinessDraft_eq. destruct (contains_undefined _) eqn:Hc; [done|].
    simpl. apply map_Forall_insert_2; [|done]. by apply clean_fields_storable.
  - rewrite updateBusiness_eq. by apply update_outcome_store_ok.
  - rewrite completeBusinessRegistration_eq. by apply update_outcome_store_ok.
Qed.

Lemma run_store_ok db ops :
  store_ok db -> store_ok (run serverTimestamp db ops).
Proof.
  revert db. induction ops as [|op ops IH]; simpl; intros db Hok; [done|].
  by apply IH, perform_store_ok.
Qed.

(** C8.  In every store that the data-access layer has written,
    [getBusinessDraft] fails with "Business draft not found" exactly when
    there is no document at the path; otherwise it returns the body of the
    document, which holds no [undefined] at any depth and is what
    [cleanFirestoreData] returns for it. *)
Theorem getBusinessDraft_found_sanitized ops userId businessId :
  let db := run serverTimestamp ∅ ops in
  (getBusinessDraft db userId businessId = Throw (Error "Business draft not found")
   <-> db !! (userId, businessId) = None)
  /\ (forall doc, db !! (userId, businessId) = Some doc ->
      getBusinessDraft db userId businessId = Ok (JObj doc)
      /\ contains_undefined (JObj doc) = false
      /\ cleanFirestoreData (JObj doc) = JObj doc).
Proof.
  intros db. assert (store_ok db) as Hok.
  { apply run_store_ok. apply map_Forall_empty. }
  unfold getBusinessDraft. split.
  - destruct (db !! (userId, businessId)); split; done.
  - intros doc Hdoc. rewrite Hdoc. split; [done|].
    apply (Hok _ _) in Hdoc. apply storable_spec in Hdoc as [Hs Hc].
    split; [done | by apply clean_sanitized_id].
Qed.

(** *** Status and payment details *)

Lemma clean_fold_NoDup props : NoDup (map fst (fold_left clean_step props [])).
Proof.
  pose proof (clean_sanitized (JObj props)) as Hs. rewrite clean_obj in Hs.
  by apply sanitized_obj in Hs as [Hnd _].
Qed.

Lemma draft_status businessData :
  status_of (fold_left clean_step (formatted_draft serverTimestamp businessData) [])
  = Some (JStr "draft").
Proof.
  unfold status_of. rewrite clean_fold_get by apply formatted_draft_NoDup.
  unfold formatted_draft at 1. by rewrite obj_get_set_eq.
Qed.

Lemma payment_update_NoDup now paymentDetails :
  NoDup (map fst (payment_update now paymentDetails)).
Proof. by apply distinct_NoDup. Qed.

Lemma payment_fields_status now paymentDetails old :
  status_of (assign old (fold_left clean_step (payment_update now paymentDetails) []))
  = Some (JStr "completed").
Proof.
  unfold status_of. rewrite assign_get by apply clean_fold_NoDup.
  by rewrite clean_fold_get by apply payment_update_NoDup.
Qed.

Lemma payment_fields_payment now paymentDetails old :
  obj_get "paymentDetails"
    (assign old (fold_left clean_step (payment_update now paymentDetails) []))
  = Some (JObj (fold_left clean_step
                  (obj_set "createdAt" now (assign [] paymentDetails)) [])).
Proof.
  rewrite assign_get by apply clean_fold_NoDup.
  by rewrite clean_fold_get by apply payment_update_NoDup.
Qed.

Lemma update_fields_notin updateData key :
  key ∉ map fst updateData -> key <> "updatedAt" ->
  key ∉ map fst (fold_left clean_step
                   (obj_set "updatedAt" serverTimestamp (assign [] updateData)) []).
Proof.
  intros Hnin Hne Hin. apply clean_fold_keys in Hin as [Hin|Hin].
  - apply obj_set_keys in Hin as [->|Hin]; [done|].
    apply assign_keys in Hin as [Hin|Hin]; [|done]. by apply elem_of_nil in Hin.
  - by apply elem_of_nil in Hin.
Qed.

Lemma has_payment_get doc doc' :
  obj_get "paymentDetails" doc' = obj_get "paymentDetails" doc ->
  has_payment doc' = has_payment doc.
Proof. unfold has_payment. by intros ->. Qed.

(** One call keeps the invariant and keeps completed documents
    completed. *)
Lemma perform_inv db op :
  store_inv db -> op_ok db op ->
  store_inv (fst (perform serverTimestamp db op))
  /\ (forall ref, completed db ref -> completed (fst (perform serverTimestamp db op)) ref).
Proof.
  intros Hinv Hop.
  destruct op as [newId userId D|userId businessId U|now userId businessId pd];
    simpl in *.
  - rewrite saveBusinessDraft_eq. destruct (contains_undefined _); [done|]. simpl.
    split.
    + apply map_Forall_insert_2; [|done]. left. apply draft_status.
    + intros ref (doc & Hdoc & Hst). exists doc. split; [|done].
      rewrite lookup_insert_ne; [done|]. intros <-. congruence.
  - rewrite updateBusiness_eq. unfold update_outcome.
    destruct (contains_undefined _); [done|].
    destruct (db !! (userId, businessId)) as [old|] eqn:Hold; [|done]. cbn [fst].
    apply andb_true_iff in Hop as [Hs Hp].
    apply negb_true_iff, existsb_eqb_notin in Hs.
    apply negb_true_iff, existsb_eqb_notin in Hp.
    set (F := fold_left clean_step _ []).
    assert (status_of (assign old F) = status_of old) as Hst.
    { apply assign_get_notin. by apply update_fields_notin. }
    assert (has_payment (assign old F) = has_payment old) as Hpay.
    { apply has_payment_get, assign_get_notin. by apply update_fields_notin. }
    split.
    + apply map_Forall_insert_2; [|done]. unfold status_ok.
      rewrite Hst, Hpay. by apply (Hinv (userId, businessId)).
    + intros ref (doc & Hdoc & Hc).
      destruct (decide (ref = (userId, businessId))) as [->|Hne].
      * exists (assign old F). rewrite lookup_insert_eq. split; [done|].
        rewrite Hst. congruence.
      * exists doc. by rewrite lookup_insert_ne.
  - rewrite completeBusinessRegistration_eq. unfold update_outcome.
    destruct (contains_undefined _); [done|].
    destruct (db !! (userId, businessId)) as [old|] eqn:Hold; [|done]. cbn [fst].
    split.
    + apply map_Forall_insert_2; [|done]. right. split.
      * apply payment_fields_status.
      * unfold has_payment. by rewrite payment_fields_payment.
    + intros ref (doc & Hdoc & Hc).
      destruct (decide (ref = (userId, businessId))) as [->|Hne].
      * eexists. rewrite lookup_insert_eq. split; [done|].
        apply payment_fields_status.
      * exists doc. by rewrite lookup_insert_ne.
Qed.

(** C3, as amended.  Across every sequence of calls in which each
    creation gets an identifier that is not in use and no update carries
    a [status] or a [paymentDetails] field, every document is a draft or
    is completed with payment details present, and a completed document
    stays completed. *)
Theorem status_only_advances db ops :
  store_inv db -> admissible serverTimestamp db ops ->
  store_inv (run serverTimestamp db ops)
  /\ (forall ref, completed db ref -> completed (run serverTimestamp db ops) ref).
Proof.
  revert db. induction ops as [|op ops IH]; simpl; intros db Hinv Hadm; [done|].
  destruct Hadm as [Hop Hadm].
  destruct (perform_inv db op Hinv Hop) as [Hinv' Hmono].
  destruct (IH _ Hinv' Hadm) as [Hinv'' Hmono'].
  split; [done|]. intros ref Hc. by apply Hmono', Hmono.
Qed.

(** *** Completing twice *)

Lemma payment_update_elements now paymentDetails :
  elements_defined (JObj paymentDetails) = true -> elements_defined now = true ->
  elements_defined (JObj (payment_update now paymentDetails)) = true.
Proof.
  intros Hpd Hnow. unfold payment_update.
  assert (elements_defined (JObj (obj_set "createdAt" now (assign [] paymentDetails)))
          = true) as Hf.
  { apply elements_defined_obj.
    apply (obj_set_Forall (fun v => elements_defined v = true)); [|done].
    apply (assign_Forall (fun v => elements_defined v = true)); [constructor|].
    by apply elements_defined_obj. }
  apply elements_defined_obj. repeat constructor; done.
Qed.

Lemma completeBusinessRegistration_ok db now userId businessId paymentDetails old :
  db !! (userId, businessId) = Some old ->
  elements_defined (JObj paymentDetails) = true -> elements_defined now = true ->
  completeBusinessRegistration db now userId businessId paymentDetails
  = (<[(userId, businessId) :=
        assign old (fold_left clean_step (payment_update now paymentDetails) [])]> db,
     Ok businessId).
Proof.
  intros Hold Hpd Hnow. rewrite completeBusinessRegistration_eq.
  unfold update_outcome. rewrite clean_no_undefined, Hold; [done|].
  by apply payment_update_elements.
Qed.

Lemma payment_fields_other now paymentDetails key :
  key <> "createdAt" ->
  obj_get key (fold_left clean_step
                 (obj_set "createdAt" now (assign [] paymentDetails)) [])
  = obj_get key (fold_left clean_step (assign [] paymentDetails) []).
Proof.
  intros Hne.
  rewrite !clean_fold_get by (try apply obj_set_NoDup; apply assign_nil_NoDup).
  by rewrite obj_get_set_ne.
Qed.

Lemma payment_doc_other now paymentDetails old key :
  key <> "paymentDetails" -> key <> "updatedAt" -> key <> "status" ->
  obj_get key (assign old (fold_left clean_step (payment_update now paymentDetails) []))
  = obj_get key old.
Proof.
  intros H1 H2 H3. apply assign_get_notin. intros Hin.
  apply clean_fold_keys in Hin as [Hin|Hin]; [|by apply elem_of_nil in Hin].
  simpl in Hin. rewrite !elem_of_cons, elem_of_nil in Hin.
  destruct Hin as [->|[->|[->|[]]]]; done.
Qed.

(** C4, as amended.  Two calls of [completeBusinessRegistration] on an
    existing document with the same payment details both succeed and
    leave the status ["completed"]; the payment details stored by the
    second call agree with those stored by the first in every field but
    the [createdAt] stamp, and the rest of the document, its [updatedAt]
    stamp apart, is unchanged.  When both calls read the same clock value
    the second call leaves the store as the first left it. *)
Theorem complete_twice db now1 now2 userId businessId paymentDetails old :
  db !! (userId, businessId) = Some old ->
  elements_defined (JObj paymentDetails) = true ->
  elements_defined now1 = true -> elements_defined now2 = true ->
  exists db1 db2 doc1 doc2 pd1 pd2,
    completeBusinessRegistration db now1 userId businessId paymentDetails
    = (db1, Ok businessId)
    /\ completeBusinessRegistration db1 now2 userId businessId paymentDetails
       = (db2, Ok businessId)
    /\ db1 !! (userId, businessId) = Some doc1
    /\ db2 !! (userId, businessId) = Some doc2
    /\ status_of doc1 = Some (JStr "completed")
    /\ status_of doc2 = Some (JStr "completed")
    /\ obj_get "paymentDetails" doc1 = Some (JObj pd1)
    /\ obj_get "paymentDetails" doc2 = Some (JObj pd2)
    /\ (forall key, key <> "createdAt" -> obj_get key pd2 = obj_get key pd1)
    /\ (forall key, key <> "paymentDetails" -> key <> "updatedAt" ->
                    obj_get key doc2 = obj_get key doc1)
    /\ (now1 = now2 -> db2 = db1).
Proof.
  intros Hold Hpd Hnow1 Hnow2.
  set (F1 := fold_left clean_step (payment_update now1 paymentDetails) []).
  set (F2 := fold_left clean_step (payment_update now2 paymentDetails) []).
  set (ref := (userId, businessId)).
  exists (<[ref := assign old F1]> db), (<[ref := assign (assign old F1) F2]> db).
  exists (assign old F1), (assign (assign old F1) F2).
  eexists _, _. split_and!.
  - by apply completeBusinessRegistration_ok.
  - rewrite (completeBusinessRegistration_ok _ _ _ _ _ (assign old F1));
      [|by apply lookup_insert_eq|done|done].
    by rewrite insert_insert_eq.
  - by apply lookup_insert_eq.
  - by apply lookup_insert_eq.
  - apply payment_fields_status.
  - apply payment_fields_status.
  - apply payment_fields_payment.
  - apply payment_fields_payment.
  - intros key Hne. by rewrite !payment_fields_other.
  - intros key H1 H2. destruct (decide (key = "status")) as [->|H3].
    + transitivity (Some (JStr "completed"));
        [apply payment_fields_status | symmetry; apply payment_fields_status].
    + subst F1 F2. by rewrite !payment_doc_other.
  - intros <-. subst F2. fold F1. by rewrite assign_idem by apply clean_fold_NoDup.
Qed.

End DataAccessFacts.

(** A concrete draft, written and read back. *)
Lemma saveBusinessDraft_sample :
  getBusinessDraft
    (fst (saveBusinessDraft JNull ∅ "b1" "u1"
            [("country", JObj [("name", JStr "US")]);
             ("owner", JArr [JObj [("id", JStr "1"); ("isCEO", JUndefined)]]);
             ("address", JUndefined)]))
    "u1" "b1"
  = Ok (JObj [("country", JObj [("name", JStr "US")]);
              ("owner", JArr [JObj [("id", JStr "1")]]);
              ("createdAt", JNull); ("updatedAt", JNull);
              ("status", JStr "draft")]).
Proof. by vm_compute. Qed.

(** C3: the claim fails as stated.  An update that carries [status]
    turns a completed document back into a draft, or completes a draft
    that has no payment details; an update that carries [paymentDetails]
    removes the details of a completed document. *)
Lemma update_breaks_status_invariant :
  let now := JObj [("seconds", JNum (Int 1)); ("nanoseconds", JNum (Int 0))] in
  let paid :=
    run JNull ∅
      [CreateDraft "b1" "u1" [];
       CompleteRegistration now "u1" "b1" [("amount", JNum (Int 150))]] in
  let reverted := run JNull paid [UpdateDraft "u1" "b1" [("status", JStr "draft")]] in
  let unpaid :=
    run JNull ∅
      [CreateDraft "b1" "u1" [];
       UpdateDraft "u1" "b1" [("status", JStr "completed")]] in
  let stripped := run JNull paid [UpdateDraft "u1" "b1" [("paymentDetails", JNull)]] in
  status_of <$> paid !! ("u1", "b1") = Some (Some (JStr "completed"))
  /\ status_of <$> reverted !! ("u1", "b1") = Some (Some (JStr "draft"))
  /\ status_of <$> unpaid !! ("u1", "b1") = Some (Some (JStr "completed"))
  /\ has_payment <$> unpaid !! ("u1", "b1") = Some false
  /\ status_of <$> stripped !! ("u1", "b1") = Some (Some (JStr "completed"))
  /\ has_payment <$> stripped !! ("u1", "b1") = Some false.
Proof. by vm_compute. Qed.

Lemma status_only_advances_witness :
  let now := JObj [("seconds", JNum (Int 1)); ("nanoseconds", JNum (Int 0))] in
  let ops :=
    [CreateDraft "b1" "u1" [("country", JObj [("name", JStr "US")])];
     UpdateDraft "u1" "b1" [("company", JObj [("name", JStr "Acme")])];
     CompleteRegistration now "u1" "b1" [("amount", JNum (Int 150))];
     UpdateDraft "u1" "b1" [("address", JObj [("city", JStr "Austin")])]] in
  store_inv (run JNull ∅ ops)
  /\ (forall ref, completed ∅ ref -> completed (run JNull ∅ ops) ref).
Proof.
  intros now ops. apply (status_only_advances JNull ∅ ops).
  - apply map_Forall_empty.
  - simpl. split_and!; done.
Defined.

(** C4: the claim fails as stated.  The second call stores payment
    details that differ from those of the first in [createdAt]. *)
Lemma complete_twice_differs :
  let t1 := JObj [("seconds", JNum (Int 1)); ("nanoseconds", JNum (Int 0))] in
  let t2 := JObj [("seconds", JNum (Int 2)); ("nanoseconds", JNum (Int 0))] in
  let pd := [("amount", JNum (Int 150)); ("currency", JStr "usd")] in
  let db := run JNull ∅ [CreateDraft "b1" "u1" []] in
  let db1 := fst (completeBusinessRegistration db t1 "u1" "b1" pd) in
  let db2 := fst (completeBusinessRegistration db1 t2 "u1" "b1" pd) in
  obj_get "paymentDetails" <$> db1 !! ("u1", "b1")
  = Some (Some (JObj [("amount", JNum (Int 150)); ("currency", JStr "usd");
                      ("createdAt", t1)]))
  /\ obj_get "paymentDetails" <$> db2 !! ("u1", "b1")
     = Some (Some (JObj [("amount", JNum (Int 150)); ("currency", JStr "usd");
                         ("createdAt", t2)]))
  /\ obj_get "paymentDetails" <$> db2 !! ("u1", "b1")
     <> obj_get "paymentDetails" <$> db1 !! ("u1", "b1").
Proof. by vm_compute. Qed.

Lemma complete_twice_witness :
  let t1 := JObj [("seconds", JNum (Int 1)); ("nanoseconds", JNum (Int 0))] in
  let t2 := JObj [("seconds", JNum (Int 2)); ("nanoseconds", JNum (Int 0))] in
  let pd := [("amount", JNum (Int 150)); ("currency", JStr "usd")] in
  let db : Store := {[("u1", "b1") := [("status", JStr "draft")]]} in
  exists db1 db2 doc1 doc2 pd1 pd2,
    completeBusinessRegistration db t1 "u1" "b1" pd = (db1, Ok "b1")
    /\ completeBusinessRegistration db1 t2 "u1" "b1" pd = (db2, Ok "b1")
    /\ db1 !! ("u1", "b1") = Some doc1
    /\ db2 !! ("u1", "b1") = Some doc2
    /\ status_of doc1 = Some (JStr "completed")
    /\ status_of doc2 = Some (JStr "completed")
    /\ obj_get "paymentDetails" doc1 = Some (JObj pd1)
    /\ obj_get "paymentDetails" doc2 = Some (JObj pd2)
    /\ (forall key, key <> "createdAt" -> obj_get key pd2 = obj_get key pd1)
    /\ (forall key, key <> "paymentDetails" -> key <> "updatedAt" ->
                    obj_get key doc2 = obj_get key doc1)
    /\ (t1 = t2 -> db2 = db1).
Proof.
  intros t1 t2 pd db.
  apply (complete_twice db t1 t2 "u1" "b1" pd [("status", JStr "draft")]).
  - apply lookup_singleton_eq.
  - reflexivity.
  - reflexivity.
  - reflexivity.
Defined.

(** *** Storage paths *)

Lemma split_go_absent sep s :
  contains sep s = false -> split_go sep 0 s = (s, []).
Proof.
  induction s as [|c s IH]; [done|].
  cbn [contains split_go]. intros Hc.
  apply orb_false_iff in Hc as [Hs Hc]. rewrite Hs, (IH Hc). done.
Qed.

(** C10.  When the decoded URL has no ["/o/"] in it,
    [getStoragePathFromUrl] throws a [TypeError] instead of returning a
    path, and [deleteDocument] fails with "Failed to delete document"
    and leaves the storage, the record of deletions included, as it
    was. *)
Theorem no_object_segment_throws url decodedUrl :
  decodeURIComponent url = Ok decodedUrl ->
  contains "/o/" decodedUrl = false ->
  getStoragePathFromUrl url = Throw TypeError
  /\ (forall st, deleteDocument st url = (st, Throw (Error "Failed to delete document"))).
Proof.
  intros Hd Hc. unfold getStoragePathFromUrl, deleteDocument, split.
  rewrite Hd. cbn [mbind Result_bind]. by rewrite (split_go_absent _ _ Hc).
Qed.

Lemma no_object_segment_throws_witness :
  getStoragePathFromUrl "https://example.com/files/123.png" = Throw TypeError
  /\ (forall st, deleteDocument st "https://example.com/files/123.png"
                 = (st, Throw (Error "Failed to delete document"))).
Proof.
  apply (no_object_segment_throws _ "https://example.com/files/123.png");
    reflexivity.
Defined.

Lemma append_cons x (a b : string) : String x a +:+ b = String x (a +:+ b).
Proof. reflexivity. Qed.

Lemma append_assoc (a b c : string) : (a +:+ b) +:+ c = a +:+ b +:+ c.
Proof. induction a as [|x a IH]; [done|]. rewrite !append_cons. by rewrite IH. Qed.

Lemma append_nil_r (a : string) : a +:+ "" = a.
Proof. induction a as [|x a IH]; [done|]. rewrite append_cons. by rewrite IH. Qed.

Lemma split_go_before sep a rest :
  no_match_before sep a rest = true ->
  split_go sep 0 (a +:+ rest)
  = (a +:+ fst (split_go sep 0 rest), snd (split_go sep 0 rest)).
Proof.
  induction a as [|c a IH]; cbn [no_match_before].
  - intros _. change (EmptyString +:+ rest) with rest.
    by destruct (split_go sep 0 rest).
  - intros H. apply andb_true_iff in H as [Hs Ha]. apply negb_true_iff in Hs.
    rewrite append_cons in *. cbn [split_go]. rewrite Hs, (IH Ha). done.
Qed.

Lemma split_go_skip sep s rest :
  split_go sep (String.length s) (s +:+ rest) = split_go sep 0 rest.
Proof.
  induction s as [|c s IH]; [done|]. rewrite append_cons.
  cbn [String.length split_go]. apply IH.
Qed.

Lemma starts_with_self sep rest : starts_with sep (sep +:+ rest) = true.
Proof.
  induction sep as [|c sep IH]; [done|]. rewrite append_cons.
  cbn [starts_with]. by rewrite Ascii.eqb_refl, IH.
Qed.

(** The split at the first occurrence of a separator. *)
Lemma split_go_at c sep a rest :
  no_match_before (String c sep) a (String c sep +:+ rest) = true ->
  split_go (String c sep) 0 (a +:+ String c sep +:+ rest)
  = (a, fst (split_go (String c sep) 0 rest) :: snd (split_go (String c sep) 0 rest)).
Proof.
  intros H. rewrite (split_go_before _ _ _ H).
  assert (split_go (String c sep) 0 (String c sep +:+ rest)
          = (EmptyString,
             fst (split_go (String c sep) 0 rest) :: snd (split_go (String c sep) 0 rest)))
    as ->.
  { rewrite append_cons. cbn [split_go]. rewrite <- append_cons.
    rewrite starts_with_self.
    replace (String.length (String c sep) - 1) with (String.length sep)
      by (cbn [String.length]; lia).
    rewrite split_go_skip. by destruct (split_go (String c sep) 0 rest). }
  cbn [fst snd]. by rewrite append_nil_r.
Qed.

Lemma decode_unfold c rest :
  decodeURIComponent (String c rest)
  = if Ascii.eqb c "%" then
      match rest with
      | String h (String l rest') =>
          match hex_value h, hex_value l with
          | Some a, Some b =>
              r ← decodeURIComponent rest';
              Ok (String (ascii_of_N (16 * a + b)) r)
          | _, _ => Throw URIError
          end
      | _ => Throw URIError
      end
    else r ← decodeURIComponent rest; Ok (String c r).
Proof. reflexivity. Qed.

Lemma decode_encode_char c rest :
  decodeURIComponent (encodeURIComponent (String c EmptyString) +:+ rest)
  = r ← decodeURIComponent rest; Ok (String c r).
Proof. destruct c as [[] [] [] [] [] [] [] []]; reflexivity. Qed.

Lemma encode_cons c p :
  encodeURIComponent (String c p)
  = encodeURIComponent (String c EmptyString) +:+ encodeURIComponent p.
Proof. cbn [encodeURIComponent]. by destruct (uri_unreserved c). Qed.

(** Decoding undoes the encoding of a path, whatever decodable text
    follows it. *)
Lemma decode_encode p rest r :
  decodeURIComponent rest = Ok r ->
  decodeURIComponent (encodeURIComponent p +:+ rest) = Ok (p +:+ r).
Proof.
  intros Hr. induction p as [|c p IH]; [done|].
  rewrite encode_cons, append_assoc, decode_encode_char, IH. done.
Qed.

(** Decoding a text in two parts, when the first part decodes by
    itself. *)
Lemma decode_app_length n a ra rest r :
  String.length a <= n ->
  decodeURIComponent a = Ok ra -> decodeURIComponent rest = Ok r ->
  decodeURIComponent (a +:+ rest) = Ok (ra +:+ r).
Proof.
  revert a ra. induction n as [|n IH]; intros a ra Hn Ha Hr.
  - destruct a; [|simpl in Hn; lia]. injection Ha as <-. done.
  - destruct a as [|c a]; [injection Ha as <-; done|].
    rewrite append_cons. rewrite decode_unfold in *.
    destruct (Ascii.eqb c "%").
    + destruct a as [|h [|l a]]; try discriminate. rewrite !append_cons.
      destruct (hex_value h), (hex_value l); try discriminate.
      destruct (decodeURIComponent a) as [ra'|] eqn:Ha'; [|discriminate].
      cbn [mbind Result_bind] in Ha. injection Ha as <-.
      rewrite (IH a ra'); [done| |done|done]. simpl in Hn. lia.
    + destruct (decodeURIComponent a) as [ra'|] eqn:Ha'; [|discriminate].
      cbn [mbind Result_bind] in Ha. injection Ha as <-.
      rewrite (IH a ra'); [done| |done|done]. simpl in Hn. lia.
Qed.

Lemma decode_app a ra rest r :
  decodeURIComponent a = Ok ra -> decodeURIComponent rest = Ok r ->
  decodeURIComponent (a +:+ rest) = Ok (ra +:+ r).
Proof. by apply (decode_app_length (String.length a)). Qed.

Lemma no_match_before_object P rest :
  contains "/o/" (P +:+ "/o") = false ->
  no_match_before "/o/" P ("/o/" +:+ rest) = true.
Proof.
  induction P as [|c P IH]; [done|]. rewrite append_cons. cbn [contains].
  intros H. apply orb_false_iff in H as [Hs Hc]. cbn [no_match_before].
  rewrite (IH Hc), andb_true_r. apply negb_true_iff.
  etransitivity; [|exact Hs]. destruct P as [|c2 [|c3 P]]; reflexivity.
Qed.

Lemma no_match_before_query a rest :
  contains "/o/" a = false -> no_match_before "/o/" a (String "?" rest) = true.
Proof.
  induction a as [|c a IH]; [done|]. cbn [contains].
  intros H. apply orb_false_iff in H as [Hs Hc]. cbn [no_match_before].
  rewrite (IH Hc), andb_true_r. apply negb_true_iff.
  destruct a as [|c2 [|c3 a]].
  - change (Ascii.eqb "/" c && false = false). apply andb_false_r.
  - change (Ascii.eqb "/" c && (Ascii.eqb "o" c2 && false) = false).
    by rewrite !andb_false_r.
  - etransitivity; [|exact Hs]. reflexivity.
Qed.

Lemma no_match_before_mark a rest :
  contains "?" a = false -> no_match_before "?" a rest = true.
Proof.
  induction a as [|c a IH]; [done|]. cbn [contains].
  intros H. apply orb_false_iff in H as [Hs Hc]. cbn [no_match_before].
  rewrite (IH Hc), andb_true_r. apply negb_true_iff.
  etransitivity; [|exact Hs]. reflexivity.
Qed.

(** From the download URL of a path, [getStoragePathFromUrl] returns the
    path up to its first question mark: the path itself when it has
    none.  The part [a] of the path before the question mark is free of
    ["/o/"], and so is the URL before the path. *)
Lemma getStoragePathFromUrl_up_to_mark bucket token P t a tail :
  decodeURIComponent ("https://firebasestorage.googleapis.com/v0/b/" +:+ bucket) = Ok P ->
  decodeURIComponent token = Ok t ->
  contains "/o/" (P +:+ "/o") = false ->
  contains "/o/" a = false -> contains "?" a = false ->
  tail = EmptyString \/ (exists tail', tail = String "?" tail') ->
  getStoragePathFromUrl (download_url bucket (a +:+ tail) token) = Ok a.
Proof.
  intros HP Ht HPo Hao Haq Htail.
  assert (exists W, (a +:+ tail) +:+ "?alt=media&token=" +:+ t = a +:+ String "?" W)
    as [W HW].
  { destruct Htail as [->|[tail' ->]].
    - rewrite append_nil_r. by eexists.
    - rewrite append_assoc, append_cons. by eexists. }
  assert (decodeURIComponent (download_url bucket (a +:+ tail) token)
          = Ok (P +:+ "/o/" +:+ a +:+ String "?" W)) as Hdec.
  { unfold download_url. rewrite <- (append_assoc _ bucket).
    rewrite <- HW. apply decode_app; [done|].
    apply (decode_app "/o/" "/o/"); [done|].
    apply decode_encode. by apply (decode_app "?alt=media&token=" "?alt=media&token="). }
  unfold getStoragePathFromUrl. rewrite Hdec. cbn [mbind Result_bind]. unfold split.
  rewrite (split_go_at "/" "o/") by (by apply no_match_before_object).
  cbn [snd]. rewrite (split_go_before "/o/" a) by (by apply no_match_before_query).
  cbn [fst]. f_equal.
  assert (exists Z, fst (split_go "/o/" 0 (String "?" W)) = String "?" Z) as [Z ->].
  { cbn [split_go]. change (starts_with "/o/" (String "?" W)) with false.
    cbv iota. destruct (split_go "/o/" 0 W). by eexists. }
  change (String "?" Z) with (String "?" EmptyString +:+ Z).
  by rewrite (split_go_at "?" "") by (by apply no_match_before_mark).
Qed.

(** The path is recovered exactly when it has neither ["/o/"] nor a
    question mark in it. *)
Lemma getStoragePathFromUrl_inverts bucket token P t path :
  decodeURIComponent ("https://firebasestorage.googleapis.com/v0/b/" +:+ bucket) = Ok P ->
  decodeURIComponent token = Ok t ->
  contains "/o/" (P +:+ "/o") = false ->
  contains "/o/" path = false -> contains "?" path = false ->
  getStoragePathFromUrl (download_url bucket path token) = Ok path.
Proof.
  intros HP Ht HPo Hao Haq. rewrite <- (append_nil_r path) at 1.
  apply (getStoragePathFromUrl_up_to_mark bucket token P t); auto.
Qed.

(** The path of the specification's example is recovered. *)
Lemma getStoragePathFromUrl_example :
  getStoragePathFromUrl
    (download_url "app.appspot.com" "users/u1/documents/123.png" "t0")
  = Ok "users/u1/documents/123.png".
Proof. reflexivity. Qed.

(** C9: where the code departs from the claim.  A file named
    [photo.jpg?v=2] is stored at a path that ends in [.jpg?v=2]; from its
    download URL [getStoragePathFromUrl] returns the path cut at the
    question mark, and [deleteDocument] asks for the deletion of that
    other path, fails, and leaves the object in the bucket.  A path with
    ["/o/"] in it is cut at that place. *)
Lemma getStoragePathFromUrl_cuts_path :
  let empty := {| objects := ∅; deletions := [] |} in
  let uploaded := uploadDocument "app.appspot.com" "t0" empty 1700000000000 "u1"
                    "photo.jpg?v=2" in
  let path := "users/u1/documents/1700000000000.jpg?v=2" in
  let url := download_url "app.appspot.com" path "t0" in
  uploaded = ({| objects := {[path]} ∪ ∅; deletions := [] |}, Ok url)
  /\ getStoragePathFromUrl url = Ok "users/u1/documents/1700000000000.jpg"
  /\ deleteDocument (fst uploaded) url
     = ({| objects := {[path]} ∪ ∅;
           deletions := ["users/u1/documents/1700000000000.jpg"] |},
        Throw (Error "Failed to delete document"))
  /\ getStoragePathFromUrl (download_url "app.appspot.com" "users/o/documents/1.png" "t0")
     = Ok "users".
Proof.
  intros empty uploaded path url. split_and!; reflexivity.
Qed.

(** *** Further properties of [cleanFirestoreData] *)

Lemma clean_fold_filter props acc :
  NoDup (map fst (acc ++ props)) ->
  fold_left clean_step props acc
  = acc ++ map clean_entry (List.filter defined_entry props).
Proof.
  revert acc. induction props as [|[k v] rest IH]; simpl; intros acc Hnd.
  - by rewrite app_nil_r.
  - unfold clean_step at 2, defined_entry at 1. simpl.
    destruct (is_undefined v) eqn:Hu; simpl.
    + apply IH. rewrite map_app in *. simpl in Hnd.
      apply NoDup_app in Hnd as (Ha & Hdisj & Hr). apply NoDup_cons in Hr as [_ Hr].
      apply NoDup_app. split_and!; [done| |done].
      intros x Hx Hx'. apply (Hdisj x Hx). by right.
    + rewrite obj_set_fresh.
      * rewrite IH; [by rewrite <- app_assoc |].
        rewrite <- app_assoc. rewrite !map_app in *. exact Hnd.
      * rewrite map_app in Hnd. simpl in Hnd.
        apply NoDup_app in Hnd as (_ & Hdisj & _).
        intros Hin. apply (Hdisj k Hin). by left.
Qed.

Lemma well_formed_obj props :
  well_formed (JObj props) = true
  <-> NoDup (map fst props) /\ Forall (fun kv => well_formed (snd kv) = true) props.
Proof.
  simpl. rewrite andb_true_iff, distinct_NoDup, forallb_forall, Forall_forall.
  split; intros [H1 H2]; (split; [done|]); intros x Hx; apply H2.
  - by apply list_elem_of_In.
  - by apply list_elem_of_In.
Qed.

(** X1.  The values that [cleanFirestoreData] returns unchanged are
    exactly the sanitized ones (plain data, objects with distinct keys, no
    property whose value is [undefined], no host object), and cleaning a
    second time changes nothing. *)
Theorem cleanFirestoreData_fixed_points v :
  (cleanFirestoreData v = v <-> sanitized v = true)
  /\ cleanFirestoreData (cleanFirestoreData v) = cleanFirestoreData v.
Proof.
  split; [split|].
  - intros H. rewrite <- H. apply clean_sanitized.
  - apply clean_sanitized_id.
  - apply clean_sanitized_id, clean_sanitized.
Qed.

(** X2.  On an object, [cleanFirestoreData] drops the properties whose
    value is [undefined] and keeps all the others, [null] included, in
    their order, each with its value cleaned. *)
Theorem cleanFirestoreData_object props :
  NoDup (map fst props) ->
  cleanFirestoreData (JObj props)
  = JObj (map clean_entry (List.filter defined_entry props)).
Proof.
  intros Hnd. rewrite clean_obj. f_equal. by apply (clean_fold_filter props []).
Qed.

Lemma cleanFirestoreData_object_witness :
  let props :=
    [("name", JStr "Acme"); ("type", JUndefined); ("industry", JNull);
     ("owner", JArr [JObj [("id", JStr "1"); ("isCEO", JUndefined)]])] in
  cleanFirestoreData (JObj props)
  = JObj (map clean_entry (List.filter defined_entry props)).
Proof.
  intros props. apply (cleanFirestoreData_object props).
  apply distinct_NoDup. reflexivity.
Defined.

(** X3.  What cleaning leaves of [undefined] in a value whose objects
    have distinct keys: the cleaned value holds an [undefined] exactly when
    the value is [undefined] itself or has an array, at some depth, with
    [undefined] as an element. *)
Theorem cleanFirestoreData_undefined_left v :
  well_formed v = true ->
  contains_undefined (cleanFirestoreData v)
  = is_undefined v || negb (elements_defined v).
Proof.
  induction v as [| | | | | |elems IH|props IH] using JsValue_deep_ind; try done.
  - simpl. intros Hwf. rewrite forallb_forall in Hwf.
    induction IH as [|x l Hx Hl IHl]; [done|]. simpl.
    rewrite Hx by (apply Hwf; by left).
    rewrite IHl by (intros y Hy; apply Hwf; by right).
    by rewrite negb_andb, negb_andb, negb_involutive.
  - intros Hwf. apply well_formed_obj in Hwf as [Hnd Hwf].
    rewrite clean_obj, (clean_fold_filter props []) by done. simpl. clear Hnd.
    induction IH as [|[k x] l Hx Hl IHl]; [done|]. simpl in *.
    apply Forall_cons in Hwf as [Hwx Hwf]. simpl in Hwx. specialize (IHl Hwf).
    specialize (Hx Hwx). unfold defined_entry at 1. simpl.
    destruct (is_undefined x) eqn:Hu; simpl.
    + destruct x; try done.
    + rewrite Hx, IHl. simpl. by rewrite negb_andb.
Qed.

Lemma cleanFirestoreData_undefined_left_witness :
  let v :=
    JObj [("name", JUndefined);
          ("owner", JArr [JObj [("id", JStr "1")]; JUndefined])] in
  contains_undefined (cleanFirestoreData v)
  = is_undefined v || negb (elements_defined v).
Proof.
  intros v. apply (cleanFirestoreData_undefined_left v). reflexivity.
Defined.

(** *** What the calls write *)

Lemma assign_nil_get source key :
  NoDup (map fst source) -> obj_get key (assign [] source) = obj_get key source.
Proof. intros Hnd. rewrite assign_get by done. by destruct (obj_get key source). Qed.

Lemma update_outcome_fields db ref props a db' old :
  NoDup (map fst props) ->
  db !! ref = Some old ->
  update_outcome db ref props a = (db', Ok a) ->
  exists doc,
    db' !! ref = Some doc
    /\ (forall key,
        obj_get key doc
        = match obj_get key props with
          | Some v => if is_undefined v then obj_get key old
                      else Some (cleanFirestoreData v)
          | None => obj_get key old
          end).
Proof.
  intros Hnd Hold. unfold update_outcome.
  destruct (contains_undefined _); [done|]. rewrite Hold. intros [= <-].
  eexists. split; [apply lookup_insert_eq|].
  intros key. rewrite assign_get by apply clean_fold_NoDup.
  rewrite clean_fold_get by done. simpl.
  destruct (obj_get key props) as [v|]; [|done]. by destruct (is_undefined v).
Qed.

Lemma update_outcome_frame db ref props a :
  (forall ref', ref' <> ref ->
     fst (update_outcome db ref props a) !! ref' = db !! ref')
  /\ (forall e, snd (update_outcome db ref props a) = Throw e ->
      fst (update_outcome db ref props a) = db)
  /\ dom (fst (update_outcome db ref props a)) = dom db
  /\ (db !! ref = None ->
      update_outcome db ref props a = (db, Throw (Error "not-found"))
      \/ update_outcome db ref props a = (db, Throw (Error "invalid-argument"))).
Proof.
  unfold update_outcome. destruct (contains_undefined _).
  { split_and!; try done. eauto. }
  destruct (db !! ref) as [old|] eqn:Hold; simpl.
  - split_and!; try done.
    + intros ref' Hne. by rewrite lookup_insert_ne.
    + rewrite dom_insert_L. apply elem_of_dom_2 in Hold.
      apply subseteq_union_1_L. by apply singleton_subseteq_l.
  - split_and!; try done. eauto.
Qed.

(** X4.  The document that [saveBusinessDraft] writes: [status] is
    ["draft"], [createdAt] and [updatedAt] hold the cleaned
    [serverTimestamp()] value, whatever the caller passed under these three
    names; every other property of the draft is there with its value
    cleaned, unless its value is [undefined]; nothing else is there, and no
    other document changes. *)
Theorem saveBusinessDraft_fields serverTimestamp db newId userId businessData db' :
  NoDup (map fst businessData) ->
  is_undefined serverTimestamp = false ->
  saveBusinessDraft serverTimestamp db newId userId businessData = (db', Ok newId) ->
  exists doc,
    db' !! (userId, newId) = Some doc
    /\ obj_get "status" doc = Some (JStr "draft")
    /\ obj_get "createdAt" doc = Some (cleanFirestoreData serverTimestamp)
    /\ obj_get "updatedAt" doc = Some (cleanFirestoreData serverTimestamp)
    /\ (forall key, key <> "status" -> key <> "createdAt" -> key <> "updatedAt" ->
        obj_get key doc
        = match obj_get key businessData with
          | Some v => if is_undefined v then None else Some (cleanFirestoreData v)
          | None => None
          end)
    /\ (forall ref, ref <> (userId, newId) -> db' !! ref = db !! ref).
Proof.
  intros Hnd Hts. rewrite saveBusinessDraft_eq.
  destruct (contains_undefined _); [done|]. intros [= <-].
  eexists. split; [apply lookup_insert_eq|].
  assert (Hget : forall key,
    obj_get key (fold_left clean_step (formatted_draft serverTimestamp businessData) [])
    = match obj_get key (formatted_draft serverTimestamp businessData) with
      | Some v => if is_undefined v then None else Some (cleanFirestoreData v)
      | None => None
      end).
  { intros key. rewrite clean_fold_get by apply formatted_draft_NoDup.
    by destruct (obj_get key _). }
  unfold formatted_draft in Hget. split_and!.
  - by rewrite Hget, obj_get_set_eq.
  - rewrite Hget, obj_get_set_ne, obj_get_set_ne, obj_get_set_eq by done. by rewrite Hts.
  - rewrite Hget, obj_get_set_ne, obj_get_set_eq by done. by rewrite Hts.
  - intros key H1 H2 H3.
    rewrite Hget, !obj_get_set_ne by done. by rewrite assign_nil_get.
  - intros ref Hne. by rewrite lookup_insert_ne.
Qed.

Lemma saveBusinessDraft_fields_witness :
  let sentinel := JObj [("_methodName", JStr "serverTimestamp")] in
  let draft :=
    [("country", JObj [("name", JStr "US")]); ("status", JStr "completed");
     ("company", JUndefined)] in
  let db' := fst (saveBusinessDraft sentinel ∅ "b1" "u1" draft) in
  exists doc,
    db' !! ("u1", "b1") = Some doc
    /\ obj_get "status" doc = Some (JStr "draft")
    /\ obj_get "createdAt" doc = Some (cleanFirestoreData sentinel)
    /\ obj_get "updatedAt" doc = Some (cleanFirestoreData sentinel)
    /\ (forall key, key <> "status" -> key <> "createdAt" -> key <> "updatedAt" ->
        obj_get key doc
        = match obj_get key draft with
          | Some v => if is_undefined v then None else Some (cleanFirestoreData v)
          | None => None
          end)
    /\ (forall ref, ref <> ("u1", "b1") -> db' !! ref = (∅ : Store) !! ref).
Proof.
  intros sentinel draft db'.
  apply (saveBusinessDraft_fields sentinel ∅ "b1" "u1" draft db').
  - apply distinct_NoDup. reflexivity.
  - reflexivity.
  - reflexivity.
Defined.

(** X5.  What [updateBusiness] does to an existing document: [updatedAt]
    becomes the cleaned [serverTimestamp()] value; a property of the update
    whose value is not [undefined] replaces the stored one with its value
    cleaned ([null] is written as [null]); a property whose value is
    [undefined] and every property that the update does not name keep the
    stored value. *)
Theorem updateBusiness_fields serverTimestamp db userId businessId updateData db' old :
  NoDup (map fst updateData) ->
  is_undefined serverTimestamp = false ->
  db !! (userId, businessId) = Some old ->
  updateBusiness serverTimestamp db userId businessId updateData
  = (db', Ok businessId) ->
  exists doc,
    db' !! (userId, businessId) = Some doc
    /\ obj_get "updatedAt" doc = Some (cleanFirestoreData serverTimestamp)
    /\ (forall key, key <> "updatedAt" ->
        obj_get key doc
        = match obj_get key updateData with
          | Some v => if is_undefined v then obj_get key old
                      else Some (cleanFirestoreData v)
          | None => obj_get key old
          end).
Proof.
  intros Hnd Hts Hold. rewrite updateBusiness_eq. intros Hup.
  apply (update_outcome_fields _ _ _ _ _ old) in Hup as (doc & Hdoc & Hget);
    [|by apply obj_set_NoDup, assign_nil_NoDup|done].
  exists doc. split_and!; [done| |].
  - by rewrite Hget, obj_get_set_eq, Hts.
  - intros key Hne. rewrite Hget, obj_get_set_ne by done. by rewrite assign_nil_get.
Qed.

Lemma updateBusiness_fields_witness :
  let sentinel := JObj [("_methodName", JStr "serverTimestamp")] in
  let old := [("status", JStr "draft"); ("country", JObj [("name", JStr "US")]);
              ("company", JObj [("name", JStr "Acme")])] in
  let db : Store := {[("u1", "b1") := old]} in
  let updateData := [("company", JUndefined); ("country", JNull);
                     ("address", JObj [("city", JStr "Austin")])] in
  let db' := fst (updateBusiness sentinel db "u1" "b1" updateData) in
  exists doc,
    db' !! ("u1", "b1") = Some doc
    /\ obj_get "updatedAt" doc = Some (cleanFirestoreData sentinel)
    /\ (forall key, key <> "updatedAt" ->
        obj_get key doc
        = match obj_get key updateData with
          | Some v => if is_undefined v then obj_get key old
                      else Some (cleanFirestoreData v)
          | None => obj_get key old
          end).
Proof.
  intros sentinel old db updateData db'.
  apply (updateBusiness_fields sentinel db "u1" "b1" updateData db' old).
  - apply distinct_NoDup. reflexivity.
  - reflexivity.
  - apply lookup_singleton_eq.
  - reflexivity.
Defined.

(** X6.  What [completeBusinessRegistration] does to an existing
    document: [status] becomes ["completed"], [updatedAt] the cleaned clock
    reading, [paymentDetails] the cleaned payment details with [createdAt]
    set to the same reading, whatever [createdAt] the caller passed; every
    other property of the document, the draft's own [createdAt] included,
    keeps its value. *)
Theorem completeBusinessRegistration_fields db now userId businessId paymentDetails
    db' old :
  NoDup (map fst paymentDetails) ->
  is_undefined now = false ->
  db !! (userId, businessId) = Some old ->
  completeBusinessRegistration db now userId businessId paymentDetails
  = (db', Ok businessId) ->
  exists doc details,
    db' !! (userId, businessId) = Some doc
    /\ obj_get "status" doc = Some (JStr "completed")
    /\ obj_get "updatedAt" doc = Some (cleanFirestoreData now)
    /\ obj_get "paymentDetails" doc = Some (JObj details)
    /\ obj_get "createdAt" details = Some (cleanFirestoreData now)
    /\ (forall key, key <> "createdAt" ->
        obj_get key details
        = match obj_get key paymentDetails with
          | Some v => if is_undefined v then None else Some (cleanFirestoreData v)
          | None => None
          end)
    /\ (forall key, key <> "paymentDetails" -> key <> "status" -> key <> "updatedAt" ->
        obj_get key doc = obj_get key old).
Proof.
  intros Hnd Hnow Hold. rewrite completeBusinessRegistration_eq. intros Hup.
  apply (update_outcome_fields _ _ _ _ _ old) in Hup as (doc & Hdoc & Hget);
    [|apply payment_update_NoDup|done].
  exists doc,
    (fold_left clean_step (obj_set "createdAt" now (assign [] paymentDetails)) []).
  split_and!; [done| | | | | |].
  - by rewrite Hget.
  - rewrite Hget. simpl. by rewrite Hnow.
  - rewrite Hget. reflexivity.
  - rewrite clean_fold_get by apply obj_set_NoDup, assign_nil_NoDup.
    by rewrite obj_get_set_eq, Hnow.
  - intros key Hne.
    rewrite clean_fold_get by apply obj_set_NoDup, assign_nil_NoDup.
    rewrite obj_get_set_ne by done. rewrite assign_nil_get by done.
    by destruct (obj_get key paymentDetails).
  - intros key H1 H2 H3. rewrite Hget.
    rewrite obj_get_notin; [done|]. simpl.
    rewrite !elem_of_cons, elem_of_nil. intros [E|[E|[E|[]]]]; congruence.
Qed.

Lemma completeBusinessRegistration_fields_witness :
  let now := JObj [("seconds", JNum (Int 1700000000)); ("nanoseconds", JNum (Int 0))] in
  let old := [("company", JObj [("name", JStr "Acme")]); ("createdAt", JNull);
              ("status", JStr "draft")] in
  let db : Store := {[("u1", "b1") := old]} in
  let paymentDetails := [("amount", JNum (Int 150)); ("createdAt", JStr "yesterday")] in
  let db' := fst (completeBusinessRegistration db now "u1" "b1" paymentDetails) in
  exists doc details,
    db' !! ("u1", "b1") = Some doc
    /\ obj_get "status" doc = Some (JStr "completed")
    /\ obj_get "updatedAt" doc = Some (cleanFirestoreData now)
    /\ obj_get "paymentDetails" doc = Some (JObj details)
    /\ obj_get "createdAt" details = Some (cleanFirestoreData now)
    /\ (forall key, key <> "createdAt" ->
        obj_get key details
        = match obj_get key paymentDetails with
          | Some v => if is_undefined v then None else Some (cleanFirestoreData v)
          | None => None
          end)
    /\ (forall key, key <> "paymentDetails" -> key <> "status" -> key <> "updatedAt" ->
        obj_get key doc = obj_get key old).
Proof.
  intros now old db paymentDetails db'.
  apply (completeBusinessRegistration_fields db now "u1" "b1" paymentDetails db' old).
  - apply distinct_NoDup. reflexivity.
  - reflexivity.
  - apply lookup_singleton_eq.
  - reflexivity.
Defined.

(** X7.  A call of the data-access layer changes no document but the one
    it addresses, changes nothing at all when it throws, and removes no
    document.  [updateBusiness] and [completeBusinessRegistration] create
    none either: on a missing document they throw and the store stays as
    it was. *)
Theorem perform_frame serverTimestamp db op :
  (forall ref, ref <> target op ->
     fst (perform serverTimestamp db op) !! ref = db !! ref)
  /\ (forall e, snd (perform serverTimestamp db op) = Throw e ->
      fst (perform serverTimestamp db op) = db)
  /\ dom db ⊆ dom (fst (perform serverTimestamp db op))
  /\ match op with
     | CreateDraft _ _ _ => True
     | _ =>
         dom (fst (perform serverTimestamp db op)) = dom db
         /\ (db !! target op = None ->
             perform serverTimestamp db op = (db, Throw (Error "not-found"))
             \/ perform serverTimestamp db op
                = (db, Throw (Error "invalid-argument")))
     end.
Proof.
  destruct op as [newId userId D|userId businessId U|now userId businessId pd]; simpl.
  - rewrite saveBusinessDraft_eq. destruct (contains_undefined _); simpl.
    + done.
    + split_and!; try done.
      * intros ref Hne. by rewrite lookup_insert_ne.
      * rewrite dom_insert_L. apply union_subseteq_r.
  - rewrite updateBusiness_eq.
    destruct (update_outcome_frame db (userId, businessId)
                (obj_set "updatedAt" serverTimestamp (assign [] U)) businessId)
      as (H1 & H2 & H3 & H4).
    split_and!; try done. by rewrite H3.
  - rewrite completeBusinessRegistration_eq.
    destruct (update_outcome_frame db (userId, businessId)
                (payment_update now pd) businessId)
      as (H1 & H2 & H3 & H4).
    split_and!; try done. by rewrite H3.
Qed.

Lemma perform_other_document serverTimestamp db op ref :
  ref <> target op -> fst (perform serverTimestamp db op) !! ref = db !! ref.
Proof.
  intros Hne.
  destruct op as [newId userId D|userId businessId U|now userId businessId pd]; simpl.
  - rewrite saveBusinessDraft_eq. destruct (contains_undefined _); [done|].
    simpl. by rewrite lookup_insert_ne.
  - rewrite updateBusiness_eq. by apply update_outcome_frame.
  - rewrite completeBusinessRegistration_eq. by apply update_outcome_frame.
Qed.

(** X8.  Calls made for other users, in any number and order, leave the
    documents of a user as they are. *)
Theorem run_isolated serverTimestamp db ops userId :
  Forall (fun op => fst (target op) <> userId) ops ->
  forall businessId,
    run serverTimestamp db ops !! (userId, businessId) = db !! (userId, businessId).
Proof.
  intros Hall businessId. revert db.
  induction Hall as [|op ops Hop Hall IH]; intros db; [done|].
  simpl. change (fold_left _ ops ?d) with (run serverTimestamp d ops).
  rewrite IH. apply perform_other_document. intros E. apply Hop. by rewrite <- E.
Qed.

Lemma run_isolated_witness :
  let now := JObj [("seconds", JNum (Int 1)); ("nanoseconds", JNum (Int 0))] in
  let db : Store := {[("u1", "b1") := [("status", JStr "draft")]]} in
  let ops :=
    [CreateDraft "b1" "u2" [("country", JObj [("name", JStr "US")])];
     UpdateDraft "u2" "b1" [("status", JStr "completed")];
     CompleteRegistration now "u3" "b1" [("amount", JNum (Int 150))]] in
  run JNull db ops !! ("u1", "b1") = db !! ("u1", "b1").
Proof.
  intros now db ops. apply (run_isolated JNull db ops "u1").
  repeat constructor; simpl; discriminate.
Defined.

(** *** Listing the businesses of a user *)

Lemma id_le_trans : Transitive id_le.
Proof. intros a b c. unfold id_le. apply transitivity. Qed.

Lemma id_le_total : Total id_le.
Proof. intros a b. unfold id_le. apply total, _. Qed.

Lemma elem_of_docs_of db userId businessId doc :
  (businessId, doc) ∈ docs_of db userId <-> db !! (userId, businessId) = Some doc.
Proof.
  unfold docs_of. rewrite merge_sort_Permutation, list_elem_of_omap. split.
  - intros ([[u b] d] & Hin & Hsome). apply elem_of_map_to_list in Hin.
    unfold user_doc in Hsome. simpl in Hsome.
    destruct (String.eqb u userId) eqn:E; [|done].
    apply String.eqb_eq in E. by simplify_eq.
  - intros Hdb. exists ((userId, businessId), doc). split.
    + by apply elem_of_map_to_list.
    + unfold user_doc. simpl. by rewrite String.eqb_refl.
Qed.

Lemma docs_of_ids_NoDup db userId : NoDup (map fst (docs_of db userId)).
Proof.
  unfold docs_of. rewrite merge_sort_Permutation.
  pose proof (NoDup_fst_map_to_list db) as Hnd.
  induction (map_to_list db) as [|[[u b] d] l IH]; simpl; [constructor|].
  simpl in Hnd. apply NoDup_cons in Hnd as [Hnin Hnd]. specialize (IH Hnd).
  unfold user_doc at 1. simpl. destruct (String.eqb u userId) eqn:E; [|done].
  apply String.eqb_eq in E. subst u. simpl. apply NoDup_cons. split; [|done].
  intros Hin. apply Hnin.
  apply list_elem_of_fmap in Hin as ([b' d'] & E & Hin). simpl in E. subst b'.
  apply list_elem_of_omap in Hin as ([[u2 b2] d2] & Hin & Hsome).
  unfold user_doc in Hsome. simpl in Hsome.
  destruct (String.eqb u2 userId) eqn:E2; [|done]. apply String.eqb_eq in E2.
  simplify_eq. apply list_elem_of_fmap. by exists ((userId, b), d').
Qed.

Lemma docs_of_sorted db userId : StronglySorted id_le (docs_of db userId).
Proof.
  unfold docs_of.
  apply (@StronglySorted_merge_sort _ id_le _ id_le_trans id_le_total).
Qed.

(** X9.  In a store of documents as the layer writes them,
    [getBusinesses] returns one object per document of the user and none
    for any other document, in the order of the document identifiers; the
    object of a document holds its stored fields, after an [id] property
    that is set to the identifier first. *)
Theorem getBusinesses_lists db userId :
  store_ok db ->
  exists docs,
    getBusinesses db userId
    = map (fun d => JObj (assign [("id", JStr (fst d))] (snd d))) docs
    /\ (forall businessId doc,
          (businessId, doc) ∈ docs <-> db !! (userId, businessId) = Some doc)
    /\ NoDup (map fst docs)
    /\ StronglySorted String.le (map fst docs).
Proof.
  intros Hok. exists (docs_of db userId). split_and!.
  - unfold getBusinesses. apply map_ext_in. intros [b doc] Hin. cbn [fst snd].
    apply list_elem_of_In, elem_of_docs_of in Hin.
    apply Hok, storable_spec in Hin as [Hs _]. by rewrite (clean_sanitized_id _ Hs).
  - apply elem_of_docs_of.
  - apply docs_of_ids_NoDup.
  - pose proof (docs_of_sorted db userId) as Hs.
    induction Hs as [|d l Hs IH Hall]; simpl; constructor; [done|].
    apply Forall_forall. intros x Hx.
    apply list_elem_of_fmap in Hx as (y & -> & Hy).
    rewrite Forall_forall in Hall. by apply Hall.
Qed.

Lemma getBusinesses_lists_witness :
  let db : Store :=
    <[("u1", "b2") := [("status", JStr "completed")]]>
      (<[("u2", "b3") := [("status", JStr "draft")]]>
         {[("u1", "b1") := [("status", JStr "draft")]]}) in
  exists docs,
    getBusinesses db "u1"
    = map (fun d => JObj (assign [("id", JStr (fst d))] (snd d))) docs
    /\ (forall businessId doc,
          (businessId, doc) ∈ docs <-> db !! ("u1", businessId) = Some doc)
    /\ NoDup (map fst docs)
    /\ StronglySorted String.le (map fst docs).
Proof.
  intros db. apply (getBusinesses_lists db "u1").
  apply map_Forall_insert_2; [reflexivity|].
  apply map_Forall_insert_2; [reflexivity|].
  apply map_Forall_singleton. reflexivity.
Defined.

(** X10.  In an object that [getBusinesses] returns from such a store,
    every property other than [id] has the value stored in the document;
    [id] is the document identifier only if the document has no field named
    [id]: a stored [id] field takes its place. *)
Theorem getBusinesses_entry_fields db userId v :
  store_ok db ->
  v ∈ getBusinesses db userId ->
  exists businessId doc entry,
    db !! (userId, businessId) = Some doc
    /\ v = JObj entry
    /\ obj_get "id" entry = Some (default (JStr businessId) (obj_get "id" doc))
    /\ (forall key, key <> "id" -> obj_get key entry = obj_get key doc).
Proof.
  intros Hok Hin. unfold getBusinesses in Hin.
  apply list_elem_of_fmap in Hin as ([b doc] & -> & Hin). cbn [fst snd].
  apply elem_of_docs_of in Hin.
  pose proof (Hok _ _ Hin) as Hst. simpl in Hst.
  apply storable_spec in Hst as [Hs _].
  rewrite (clean_sanitized_id _ Hs). cbn [own_entries].
  apply sanitized_obj in Hs as [Hnd _].
  exists b, doc. eexists. split_and!; [done|done| |].
  - rewrite assign_get by done. simpl. by destruct (obj_get "id" doc).
  - intros key Hne. rewrite assign_get by done.
    destruct (obj_get key doc); [done|]. apply obj_get_notin. simpl.
    rewrite elem_of_cons, elem_of_nil. intros [E|[]]. congruence.
Qed.

Lemma getBusinesses_entry_fields_witness :
  let db : Store :=
    {[("u1", "b1") := [("id", JStr "acme"); ("status", JStr "draft")]]} in
  exists businessId doc entry,
    db !! ("u1", businessId) = Some doc
    /\ JObj [("id", JStr "acme"); ("status", JStr "draft")] = JObj entry
    /\ obj_get "id" entry = Some (default (JStr businessId) (obj_get "id" doc))
    /\ (forall key, key <> "id" -> obj_get key entry = obj_get key doc).
Proof.
  intros db.
  apply (getBusinesses_entry_fields db "u1"
           (JObj [("id", JStr "acme"); ("status", JStr "draft")])).
  - apply map_Forall_singleton. reflexivity.
  - assert (getBusinesses db "u1"
            = [JObj [("id", JStr "acme"); ("status", JStr "draft")]]) as ->
      by reflexivity.
    constructor.
Defined.

(** X11.  A draft that [saveBusinessDraft] has written is among the
    businesses that [getBusinesses] lists for the user, with status
    ["draft"], and under the generated identifier when the draft has no
    property named [id]. *)
Theorem saved_draft_is_listed serverTimestamp db newId userId businessData db' :
  saveBusinessDraft serverTimestamp db newId userId businessData = (db', Ok newId) ->
  exists entry,
    JObj entry ∈ getBusinesses db' userId
    /\ obj_get "status" entry = Some (JStr "draft")
    /\ ("id" ∉ map fst businessData -> obj_get "id" entry = Some (JStr newId)).
Proof.
  rewrite saveBusinessDraft_eq. destruct (contains_undefined _); [done|].
  intros [= <-].
  set (doc := fold_left clean_step (formatted_draft serverTimestamp businessData) []).
  assert (Hs : sanitized (JObj doc) = true).
  { unfold doc. rewrite <- clean_obj. apply clean_sanitized. }
  exists (assign [("id", JStr newId)] doc). split_and!.
  - unfold getBusinesses. apply list_elem_of_fmap.
    exists (newId, doc). cbn [fst snd]. split.
    + by rewrite (clean_sanitized_id _ Hs).
    + apply elem_of_docs_of, lookup_insert_eq.
  - apply sanitized_obj in Hs as [Hnd _]. rewrite assign_get by done.
    unfold doc.
    fold (status_of (fold_left clean_step
                       (formatted_draft serverTimestamp businessData) [])).
    by rewrite draft_status.
  - intros Hnin. apply sanitized_obj in Hs as [Hnd _]. rewrite assign_get by done.
    rewrite (obj_get_notin "id" doc); [done|].
    intros Hin. unfold doc in Hin. apply clean_fold_keys in Hin as [Hin|Hin].
    + unfold formatted_draft in Hin.
      apply obj_set_keys in Hin as [?|Hin]; [done|].
      apply obj_set_keys in Hin as [?|Hin]; [done|].
      apply obj_set_keys in Hin as [?|Hin]; [done|].
      apply assign_keys in Hin as [Hin|Hin]; [|done].
      simpl in Hin. by apply elem_of_nil in Hin.
    + simpl in Hin. by apply elem_of_nil in Hin.
Qed.

Lemma saved_draft_is_listed_witness :
  let sentinel := JObj [("_methodName", JStr "serverTimestamp")] in
  let draft := [("country", JObj [("name", JStr "US")])] in
  let db : Store := {[("u1", "b0") := [("status", JStr "completed")]]} in
  let db' := fst (saveBusinessDraft sentinel db "b1" "u1" draft) in
  exists entry,
    JObj entry ∈ getBusinesses db' "u1"
    /\ obj_get "status" entry = Some (JStr "draft")
    /\ ("id" ∉ map fst draft -> obj_get "id" entry = Some (JStr "b1")).
Proof.
  intros sentinel draft db db'.
  apply (saved_draft_is_listed sentinel db "b1" "u1" draft db'). reflexivity.
Defined.

(** *** Download URLs, uploads and deletions *)

Lemma append_length (a b : string) :
  String.length (a +:+ b) = String.length a + String.length b.
Proof. induction a as [|c a IH]; [done|]. rewrite append_cons. simpl. by rewrite IH. Qed.

Lemma deleteDocument_eq st url :
  deleteDocument st url
  = match getStoragePathFromUrl url with
    | Ok path =>
        if bool_decide (path ∈ objects st)
        then ({| objects := objects st ∖ {[path]};
                 deletions := path :: deletions st |}, Ok tt)
        else ({| objects := objects st; deletions := path :: deletions st |},
              Throw (Error "Failed to delete document"))
    | Throw _ => (st, Throw (Error "Failed to delete document"))
    end.
Proof.
  unfold deleteDocument, getStoragePathFromUrl.
  destruct (decodeURIComponent url) as [decodedUrl|e]; [|done].
  cbn [mbind Result_bind].
  destruct (snd (split "/o/" decodedUrl)) as [|part more]; [done|].
  unfold deleteObject. by destruct (bool_decide _).
Qed.

Lemma first_piece_no_mark s : contains "?" (fst (split_go "?" 0 s)) = false.
Proof.
  induction s as [|c s IH]; [done|].
  cbn [split_go]. destruct (starts_with "?" (String c s)) eqn:E.
  - cbn [String.length Nat.sub]. by destruct (split_go "?" 0 s).
  - destruct (split_go "?" 0 s) as [piece more]. cbn [fst] in *.
    cbn [contains]. rewrite IH, orb_false_r.
    cbn [starts_with] in *. rewrite andb_true_r in *. done.
Qed.

Lemma getStoragePathFromUrl_no_mark url path :
  getStoragePathFromUrl url = Ok path -> contains "?" path = false.
Proof.
  unfold getStoragePathFromUrl.
  destruct (decodeURIComponent url) as [decodedUrl|e]; [|done].
  cbn [mbind Result_bind].
  destruct (snd (split "/o/" decodedUrl)) as [|part more]; [done|].
  intros [= <-]. apply first_piece_no_mark.
Qed.

(** X12.  [getStoragePathFromUrl] recovers the path of an object from its
    download URL when the path has neither ["/o/"] nor a question mark in
    it. *)
Theorem storage_path_round_trip bucket token P t path :
  decodeURIComponent ("https://firebasestorage.googleapis.com/v0/b/" +:+ bucket) = Ok P ->
  decodeURIComponent token = Ok t ->
  contains "/o/" (P +:+ "/o") = false ->
  contains "/o/" path = false ->
  contains "?" path = false ->
  getStoragePathFromUrl (download_url bucket path token) = Ok path.
Proof. apply getStoragePathFromUrl_inverts. Qed.

Lemma storage_path_round_trip_witness :
  getStoragePathFromUrl
    (download_url "app.appspot.com" "users/u 1/documents/1700000000000.pdf" "t0")
  = Ok "users/u 1/documents/1700000000000.pdf".
Proof.
  apply (storage_path_round_trip "app.appspot.com" "t0"
           "https://firebasestorage.googleapis.com/v0/b/app.appspot.com" "t0");
    reflexivity.
Defined.

(** X13.  From the download URL of an object whose path has a question
    mark in it, [getStoragePathFromUrl] returns the part of the path before
    the first question mark, which is another path. *)
Theorem storage_path_cut_at_mark bucket token P t a b :
  decodeURIComponent ("https://firebasestorage.googleapis.com/v0/b/" +:+ bucket) = Ok P ->
  decodeURIComponent token = Ok t ->
  contains "/o/" (P +:+ "/o") = false ->
  contains "/o/" a = false -> contains "?" a = false ->
  getStoragePathFromUrl (download_url bucket (a +:+ String "?" b) token) = Ok a
  /\ a <> a +:+ String "?" b.
Proof.
  intros HP Ht HPo Ho Hq. split.
  - apply (getStoragePathFromUrl_up_to_mark bucket token P t); eauto.
  - intros E. apply (f_equal String.length) in E. rewrite append_length in E.
    simpl in E. lia.
Qed.

Lemma storage_path_cut_at_mark_witness :
  getStoragePathFromUrl
    (download_url "app.appspot.com" ("users/u1/documents/1.jpg" +:+ String "?" "v=2?x")
       "t0")
  = Ok "users/u1/documents/1.jpg"
  /\ "users/u1/documents/1.jpg" <> "users/u1/documents/1.jpg" +:+ String "?" "v=2?x".
Proof.
  apply (storage_path_cut_at_mark "app.appspot.com" "t0"
           "https://firebasestorage.googleapis.com/v0/b/app.appspot.com" "t0");
    reflexivity.
Defined.

(** X14.  [deleteDocument] either succeeds or throws the one error
    ["Failed to delete document"].  It asks for the deletion of the path
    that [getStoragePathFromUrl] computes from the URL, and of nothing when
    that throws; when it succeeds, that object and no other is gone from the
    bucket; when it throws, the bucket holds what it held. *)
Theorem deleteDocument_safe st url :
  let st' := fst (deleteDocument st url) in
  let r := snd (deleteDocument st url) in
  (r = Ok tt \/ r = Throw (Error "Failed to delete document"))
  /\ objects st' ⊆ objects st
  /\ (r <> Ok tt -> objects st' = objects st)
  /\ (r = Ok tt ->
      exists path,
        getStoragePathFromUrl url = Ok path /\ path ∈ objects st
        /\ objects st' = objects st ∖ {[path]})
  /\ deletions st'
     = match getStoragePathFromUrl url with
       | Ok path => path :: deletions st
       | Throw _ => deletions st
       end.
Proof.
  cbv zeta. rewrite deleteDocument_eq.
  destruct (getStoragePathFromUrl url) as [path|e]; simpl.
  - destruct (bool_decide (path ∈ objects st)) eqn:E; simpl.
    + apply bool_decide_eq_true in E. split_and!; try done; eauto.
      by apply subseteq_difference_l.
    + split_and!; try done; eauto.
  - split_and!; try done; eauto.
Qed.



(** X16.  [uploadDocument] stores the object under
    [users/{userId}/documents/] and returns its download URL.  When the
    path has neither ["/o/"] nor a question mark in it, [deleteDocument] on
    that URL succeeds and removes exactly the uploaded object. *)
Theorem upload_then_delete bucket token st now userId fileName P t :
  decodeURIComponent ("https://firebasestorage.googleapis.com/v0/b/" +:+ bucket) = Ok P ->
  decodeURIComponent token = Ok t ->
  contains "/o/" (P +:+ "/o") = false ->
  exists path,
    snd (uploadDocument bucket token st now userId fileName)
    = Ok (download_url bucket path token)
    /\ objects (fst (uploadDocument bucket token st now userId fileName))
       = {[path]} ∪ objects st
    /\ starts_with ("users/" +:+ userId +:+ "/documents/") path = true
    /\ (contains "/o/" path = false -> contains "?" path = false ->
        getStoragePathFromUrl (download_url bucket path token) = Ok path
        /\ deleteDocument (fst (uploadDocument bucket token st now userId fileName))
             (download_url bucket path token)
           = ({| objects := ({[path]} ∪ objects st) ∖ {[path]};
                 deletions := path :: deletions st |}, Ok tt)).
Proof.
  intros HP Ht HPo. unfold uploadDocument.
  destruct (split "." fileName) as [first more].
  eexists. split_and!; [reflexivity|reflexivity| |].
  - assert (E : forall x, "users/" +:+ userId +:+ "/documents/" +:+ x
                          = ("users/" +:+ userId +:+ "/documents/") +:+ x)
      by (intros x; by rewrite !append_assoc).
    rewrite E. apply starts_with_self.
  - intros Ho Hq.
    pose proof (getStoragePathFromUrl_inverts bucket token P t _ HP Ht HPo Ho Hq) as Hpath.
    split; [done|]. rewrite deleteDocument_eq, Hpath. cbn [fst objects deletions].
    rewrite bool_decide_eq_true_2; [done|].
    apply elem_of_union_l. by apply elem_of_singleton.
Qed.

Lemma upload_then_delete_witness :
  let st := {| objects := ∅; deletions := [] |} in
  exists path,
    snd (uploadDocument "app.appspot.com" "t0" st 1700000000000 "u1" "passport.pdf")
    = Ok (download_url "app.appspot.com" path "t0")
    /\ objects (fst (uploadDocument "app.appspot.com" "t0" st 1700000000000 "u1"
                       "passport.pdf"))
       = {[path]} ∪ objects st
    /\ starts_with ("users/" +:+ "u1" +:+ "/documents/") path = true
    /\ (contains "/o/" path = false -> contains "?" path = false ->
        getStoragePathFromUrl (download_url "app.appspot.com" path "t0") = Ok path
        /\ deleteDocument
             (fst (uploadDocument "app.appspot.com" "t0" st 1700000000000 "u1"
                     "passport.pdf"))
             (download_url "app.appspot.com" path "t0")
           = ({| objects := ({[path]} ∪ objects st) ∖ {[path]};
                 deletions := path :: deletions st |}, Ok tt)).
Proof.
  intros st.
  apply (upload_then_delete "app.appspot.com" "t0" st 1700000000000 "u1" "passport.pdf"
           "https://firebasestorage.googleapis.com/v0/b/app.appspot.com" "t0");
    reflexivity.
Defined.

Lemma split_last_piece base ext :
  contains "." ext = false ->
  snd (split_go "." 0 (base +:+ String "." ext)) <> []
  /\ last (snd (split_go "." 0 (base +:+ String "." ext))) = Some ext.
Proof.
  intros Hext. induction base as [|c base [IH1 IH2]].
  - change ("" +:+ String "." ext) with (String "." ext). cbn [split_go].
    change (starts_with "." (String "." ext)) with true. cbv iota.
    cbn [String.length Nat.sub]. rewrite (split_go_absent "." ext Hext). by split.
  - rewrite append_cons. cbn [split_go].
    destruct (starts_with "." (String c (base +:+ String "." ext))).
    + cbn [String.length Nat.sub].
      destruct (split_go "." 0 (base +:+ String "." ext)) as [piece more].
      cbn [snd] in *. split; [done|]. by destruct more.
    + destruct (split_go "." 0 (base +:+ String "." ext)) as [piece more].
      cbn [snd] in *. by split.
Qed.

(** X17.  The object that [uploadDocument] stores is named by the upload
    time and by what follows the last dot of the file name, or by the whole
    file name when it has no dot; nothing else of the file name is kept, so
    that two uploads of a user at the same time with the same extension go
    to the same object. *)
Theorem uploadDocument_path bucket token st now userId fileName :
  let stored ext :=
    "users/" +:+ userId +:+ "/documents/"
    +:+ NilZero.string_of_int (Z.to_int now) +:+ "." +:+ ext in
  let uploaded ext :=
    ({| objects := {[stored ext]} ∪ objects st; deletions := deletions st |},
     Ok (download_url bucket (stored ext) token)) in
  (contains "." fileName = false ->
   uploadDocument bucket token st now userId fileName = uploaded fileName)
  /\ (forall base ext, fileName = base +:+ String "." ext -> contains "." ext = false ->
      uploadDocument bucket token st now userId fileName = uploaded ext).
Proof.
  intros stored uploaded. split.
  - intros Hno. unfold uploadDocument, split. by rewrite (split_go_absent "." _ Hno).
  - intros base ext -> Hext. unfold uploadDocument, split.
    destruct (split_last_piece base ext Hext) as [Hne Hlast].
    destruct (split_go "." 0 (base +:+ String "." ext)) as [first more].
    cbn [snd] in *.
    assert (last (first :: more) = Some ext) as ->; [|done].
    by destruct more.
Qed.

Lemma uploadDocument_path_witness :
  let st := {| objects := ∅; deletions := [] |} in
  let uploaded path :=
    ({| objects := {[path]} ∪ objects st; deletions := deletions st |},
     Ok (download_url "app.appspot.com" path "t0")) in
  uploadDocument "app.appspot.com" "t0" st 1700000000000 "u1" "scan.final.pdf"
  = uploaded "users/u1/documents/1700000000000.pdf"
  /\ uploadDocument "app.appspot.com" "t0" st 1700000000000 "u1" "README"
     = uploaded "users/u1/documents/1700000000000.README".
Proof.
  intros st uploaded. split.
  - destruct (uploadDocument_path "app.appspot.com" "t0" st 1700000000000 "u1"
                "scan.final.pdf") as [_ H].
    apply (H "scan.final" "pdf"); reflexivity.
  - destruct (uploadDocument_path "app.appspot.com" "t0" st 1700000000000 "u1"
                "README") as [H _].
    apply H. reflexivity.
Defined.

(** X18.  Deleting twice fails the second time: after a successful
    [deleteDocument], the same call asks for the same path again, finds no
    such object, and throws. *)
Theorem deleteDocument_twice st url st1 :
  deleteDocument st url = (st1, Ok tt) ->
  exists path,
    getStoragePathFromUrl url = Ok path
    /\ (path ∉ objects st1)
    /\ deleteDocument st1 url
       = ({| objects := objects st1; deletions := path :: deletions st1 |},
          Throw (Error "Failed to delete document")).
Proof.
  rewrite !deleteDocument_eq.
  destruct (getStoragePathFromUrl url) as [path|e]; [|done].
  destruct (bool_decide (path ∈ objects st)); [|done].
  intros [= <-]. exists path. cbn [objects deletions].
  assert (path ∉ objects st ∖ {[path]}) as Hnin.
  { rewrite elem_of_difference, elem_of_singleton. tauto. }
  split_and!; [done|done|]. by rewrite bool_decide_eq_false_2.
Qed.

Lemma deleteDocument_twice_witness :
  let path := "users/u1/documents/1700000000000.pdf" in
  let url := download_url "app.appspot.com" path "t0" in
  let st := {| objects := {[path]}; deletions := [] |} in
  let st1 := fst (deleteDocument st url) in
  exists path',
    getStoragePathFromUrl url = Ok path'
    /\ (path' ∉ objects st1)
    /\ deleteDocument st1 url
       = ({| objects := objects st1; deletions := path' :: deletions st1 |},
          Throw (Error "Failed to delete document")).
Proof.
  intros path url st st1. apply (deleteDocument_twice st url st1). reflexivity.
Defined.

End FirebaseFacts.

(** ** Checkout proxy *)

Module CheckoutFacts.

Import Checkout.

Section RouteFacts.

Variable base_url : string.
Variable create : SessionParams -> Result string.

Lemma POST_request_error e :
  POST base_url create (Throw e)
  = {| status := 500; body := [("error", JStr "Error creating checkout session")] |}.
Proof. reflexivity. Qed.

Lemma POST_success r sessionId :
  create (session_params base_url r) = Ok sessionId ->
  POST base_url create (Ok r)
  = {| status := 200; body := [("sessionId", JStr sessionId)] |}.
Proof. unfold POST. cbn [mbind Result_bind]. by intros ->. Qed.

(** C5.  The session is created with a single line item, in ["usd"],
    whose [unit_amount] is the amount of the request times 100, which for
    150.00 is 15000.  When the provider fails, whatever its error, the
    response has status 500 and the body
    [{error: "Error creating checkout session"}], in which there is no
    [sessionId]. *)
Theorem checkout_minor_units_and_opaque_failure r :
  line_items (session_params base_url r)
  = [{| price_data :=
          {| currency := "usd";
             product_name := "Business Registration";
             unit_amount := PrimFloat.mul (amount r) 100%float |};
        quantity := 1 |}]
  /\ (amount r = 150%float ->
      map (fun item => unit_amount (price_data item))
        (line_items (session_params base_url r)) = [15000%float])
  /\ (forall e,
        create (session_params base_url r) = Throw e ->
        POST base_url create (Ok r)
        = {| status := 500;
             body := [("error", JStr "Error creating checkout session")] |}
        /\ obj_get "sessionId" (body (POST base_url create (Ok r))) = None).
Proof.
  split; [reflexivity|]. split.
  - intros Ha. cbn. rewrite Ha. reflexivity.
  - intros e Hfail. unfold POST. cbn [mbind Result_bind]. by rewrite Hfail.
Qed.

(** X19.  The route answers with status 200 and the session identifier
    exactly when the request body could be read and the provider returned
    a session; in every other case, a request body that cannot be read
    included, it answers with status 500 and the one fixed error message.
    The route itself refuses no amount. *)
Theorem POST_outcome request :
  (exists r sessionId,
      request = Ok r
      /\ create (session_params base_url r) = Ok sessionId
      /\ POST base_url create request
         = {| status := 200; body := [("sessionId", JStr sessionId)] |})
  \/ (((exists e, request = Throw e)
       \/ (exists r e, request = Ok r
                       /\ create (session_params base_url r) = Throw e))
      /\ POST base_url create request
         = {| status := 500;
              body := [("error", JStr "Error creating checkout session")] |}).
Proof.
  unfold POST. destruct request as [r|e]; cbn [mbind Result_bind].
  - destruct (create (session_params base_url r)) as [sessionId|e] eqn:E.
    + left. by exists r, sessionId.
    + right. split; [|done]. right. by exists r, e.
  - right. split; [|done]. left. by exists e.
Qed.

End RouteFacts.

(** The amount 150.00 and a provider that refuses the key. *)
Lemma checkout_sample :
  let create := fun _ : SessionParams => Throw (Error "Invalid API Key provided") in
  let r := {| amount := 150%float; businessId := "b1"; userId := "u1" |} in
  map (fun item => unit_amount (price_data item))
    (line_items (session_params "https://example.com" r)) = [15000%float]
  /\ POST "https://example.com" create (Ok r)
     = {| status := 500;
          body := [("error", JStr "Error creating checkout session")] |}.
Proof.
  intros create r.
  destruct (checkout_minor_units_and_opaque_failure "https://example.com" create r)
    as (_ & Hunit & Hfail).
  split; [by apply Hunit|]. by apply (Hfail (Error "Invalid API Key provided")).
Defined.

End CheckoutFacts.

(** ** Registration page *)

Module WizardFacts.

Import Wizard.

(** *** Decimal numerals *)

Lemma digits_all ds rest :
  forallb is_digit ds = true ->
  match rest with [] => true | c :: _ => negb (is_digit c) end = true ->
  digits (ds ++ rest) = (ds, rest).
Proof.
  intros Hds Hrest. induction ds as [|d ds IH]; simpl in *.
  - destruct rest as [|c r]; [done|]. simpl.
    apply negb_true_iff in Hrest. by rewrite Hrest.
  - apply andb_true_iff in Hds as [Hd Hds]. by rewrite Hd, IH.
Qed.

Lemma uint_digits d :
  forallb is_digit (list_ascii_of_string (NilEmpty.string_of_uint d)) = true.
Proof. induction d; simpl; done. Qed.

Lemma uint_nonempty d :
  d <> Decimal.Nil -> list_ascii_of_string (NilEmpty.string_of_uint d) <> [].
Proof. by destruct d. Qed.

(** The numeral of a positive number does not begin with a zero. *)
Lemma to_uint_head p u : Pos.to_uint p <> Decimal.D0 u.
Proof.
  intros H.
  assert (Decimal.unorm (Pos.to_uint p) = Pos.to_uint p) as Hn.
  { rewrite <- (DecimalPos.Unsigned.to_of (Pos.to_uint p)).
    by rewrite DecimalPos.Unsigned.of_to. }
  rewrite H in Hn. unfold Decimal.unorm in Hn.
  destruct (Decimal.nzhead (Decimal.D0 u)) eqn:E; try discriminate Hn.
  - injection Hn as <-. by apply (DecimalPos.Unsigned.to_uint_nonzero p).
  - by apply DecimalFacts.nzhead_nonzero in E.
Qed.

(** The shape of a printed integer: an optional minus sign, then digits
    that [int_of_string] reads back. *)
Lemma print_int_shape z :
  exists sign ds,
    print_int z = sign ++ ds
    /\ (sign = [] \/ sign = ["-"%char])
    /\ forallb is_digit ds = true
    /\ match ds with
       | [] => false
       | d :: more => negb (Ascii.eqb d "0") || match more with [] => true | _ => false end
       end = true
    /\ NilZero.int_of_string (string_of_list_ascii (sign ++ ds)) = Some (Z.to_int z).
Proof.
  assert (forall p,
    exists d more,
      list_ascii_of_string (NilZero.string_of_uint (Pos.to_uint p)) = d :: more
      /\ forallb is_digit (d :: more) = true
      /\ Ascii.eqb d "0" = false) as Hpos.
  { intros p. pose proof (to_uint_head p) as Hh.
    pose proof (uint_digits (Pos.to_uint p)) as Hd.
    unfold NilZero.string_of_uint.
    destruct (Pos.to_uint p) eqn:E; simpl in *;
      try (eexists _, _; split; [reflexivity|]; split; [done|reflexivity]).
    - by apply DecimalPos.Unsigned.to_uint_nonnil in E.
    - by destruct (Hh u). }
  assert (forall d, d = Z.to_int z ->
    NilZero.int_of_string (string_of_list_ascii (print_int z)) = Some d) as Hread.
  { intros d ->. unfold print_int. rewrite string_of_list_ascii_of_string.
    apply NilZero.isi; destruct z; simpl; try discriminate;
      intros [= H]; by apply DecimalPos.Unsigned.to_uint_nonnil in H. }
  specialize (Hread _ eq_refl).
  destruct z as [|p|p].
  - exists [], ["0"%char]. by repeat split; [left|..].
  - destruct (Hpos p) as (d & more & Hp & Hd & H0).
    exists [], (d :: more). split; [exact Hp|]. split; [by left|]. split; [done|].
    split; [by rewrite H0|]. simpl app. change (d :: more) with ([] ++ d :: more).
    by rewrite <- Hp.
  - destruct (Hpos p) as (d & more & Hp & Hd & H0).
    exists ["-"%char], (d :: more).
    assert (print_int (Z.neg p) = "-"%char :: d :: more) as Hpr.
    { unfold print_int. simpl. by rewrite <- Hp. }
    split; [exact Hpr|]. split; [by right|]. split; [done|].
    split; [by rewrite H0|]. simpl app. by rewrite <- Hpr.
Qed.

Lemma is_digit_cases c :
  is_digit c = true ->
  is_space c = false /\ is_ws c = false
  /\ Ascii.eqb c "-" = false /\ Ascii.eqb c "+" = false
  /\ existsb (Ascii.eqb c) ["."; "e"; "E"]%char = false.
Proof.
  destruct c as [[] [] [] [] [] [] [] []]; try discriminate; by intros _.
Qed.

(** [parseInt] reads back what [toString] writes. *)
Lemma parseInt_toString n : parseInt (toString n) = n.
Proof.
  destruct n as [z|]; [|reflexivity].
  unfold parseInt, toString. rewrite list_ascii_of_string_of_list_ascii.
  destruct (print_int_shape z) as (sign & ds & -> & Hsign & Hds & Hnz & Hread).
  destruct ds as [|d more]; [done|]. simpl in Hds.
  apply andb_true_iff in Hds as [Hd Hmore].
  destruct (is_digit_cases d Hd) as (Hsp & _ & Hminus & Hplus & _).
  assert (digits (d :: more) = (d :: more, [])) as Hdig.
  { rewrite <- (app_nil_r (d :: more)) at 1. apply digits_all; [|done].
    simpl. by rewrite Hd. }
  destruct Hsign as [-> | ->]; simpl app in *.
  - cbn [skip_space]. rewrite Hsp, Hminus, Hplus. rewrite Hdig. cbn [fst app].
    rewrite Hread. by rewrite DecimalZ.of_to.
  - change (skip_space ("-"%char :: d :: more)) with ("-"%char :: d :: more).
    cbv beta iota zeta. rewrite Ascii.eqb_refl.
    rewrite Hdig. cbn [fst app]. rewrite Hread. by rewrite DecimalZ.of_to.
Qed.

(** *** Reading back printed text *)

Lemma closes_cases rest :
  closes rest = true ->
  skip_ws rest = rest
  /\ match rest with [] => true | c :: _ => negb (is_digit c) end = true
  /\ starts_fraction rest = false.
Proof.
  destruct rest as [|c r]; [done|]. unfold closes.
  destruct c as [[] [] [] [] [] [] [] []]; try discriminate; by intros _.
Qed.

Lemma parse_number_print z rest :
  closes rest = true ->
  parse_number (print_int z ++ rest) = Some (JNum (Int z), rest).
Proof.
  intros Hrest. destruct (closes_cases rest Hrest) as (_ & Hnd & Hfrac).
  destruct (print_int_shape z) as (sign & ds & -> & Hsign & Hds & Hnz & Hread).
  destruct ds as [|d more]; [done|]. pose proof Hds as Hds'. simpl in Hds.
  apply andb_true_iff in Hds as [Hd Hmore].
  destruct (is_digit_cases d Hd) as (_ & _ & Hminus & _ & _).
  pose proof (digits_all (d :: more) rest Hds' Hnd) as Hdig.
  assert ((match d :: more with
           | a :: _ :: _ => Ascii.eqb a "0"
           | _ => false
           end || starts_fraction rest) = false) as Hlz.
  { rewrite Hfrac, orb_false_r. destruct more; [done|].
    rewrite orb_false_r in Hnz. by apply negb_true_iff in Hnz. }
  unfold parse_number.
  destruct Hsign as [-> | ->]; simpl app in *.
  - cbv beta iota zeta. rewrite Hminus. cbv beta iota zeta.
    rewrite Hdig. cbv beta iota zeta. rewrite Hlz. simpl app. rewrite Hread.
    by rewrite DecimalZ.of_to.
  - cbv beta iota zeta. rewrite Ascii.eqb_refl. cbv beta iota zeta.
    rewrite Hdig. cbv beta iota zeta. rewrite Hlz.
    change (["-"%char] ++ d :: more) with ("-"%char :: d :: more). rewrite Hread.
    by rewrite DecimalZ.of_to.
Qed.

Lemma parse_value_number fuel c r :
  is_digit c || Ascii.eqb c "-" = true ->
  parse_value (S fuel) (c :: r) = parse_number (c :: r).
Proof.
  destruct c as [[] [] [] [] [] [] [] []]; try discriminate; by intros _.
Qed.

Lemma print_int_head z :
  exists c r, print_int z = c :: r /\ is_digit c || Ascii.eqb c "-" = true.
Proof.
  destruct (print_int_shape z) as (sign & ds & -> & Hsign & Hds & Hnz & _).
  destruct ds as [|d more]; [done|]. simpl in Hds.
  apply andb_true_iff in Hds as [Hd _].
  destruct Hsign as [-> | ->]; eexists _, _; (split; [reflexivity|]).
  - by rewrite Hd.
  - apply orb_true_r.
Qed.

Lemma parse_chars_escape c r :
  parse_chars (escape c ++ r)
  = match parse_chars r with
    | Some (cs, r') => Some (c :: cs, r')
    | None => None
    end.
Proof. destruct c as [[] [] [] [] [] [] [] []]; reflexivity. Qed.

Lemma parse_chars_quoted l rest :
  parse_chars (flat_map escape l ++ dquote :: rest) = Some (l, rest).
Proof.
  induction l as [|c l IH]; [reflexivity|].
  cbn [flat_map]. rewrite <- app_assoc, parse_chars_escape. by rewrite IH.
Qed.

Lemma parse_elems_S fuel s acc :
  parse_elems (S fuel) s acc
  = match parse_value fuel s with
    | Some (v, r) =>
        match skip_ws r with
        | c :: r1 =>
            if Ascii.eqb c "," then parse_elems fuel r1 (v :: acc)
            else if Ascii.eqb c "]" then Some (JArr (rev (v :: acc)), r1)
            else None
        | [] => None
        end
    | None => None
    end.
Proof. reflexivity. Qed.

Lemma parse_members_quoted fuel k s acc :
  parse_members (S fuel) (quote k ++ ":"%char :: s) acc
  = match parse_value fuel s with
    | Some (v, r3) =>
        let acc' := obj_set k v acc in
        match skip_ws r3 with
        | c4 :: r4 =>
            if Ascii.eqb c4 "," then parse_members fuel r4 acc'
            else if Ascii.eqb c4 "}" then Some (JObj acc', r4)
            else None
        | [] => None
        end
    | None => None
    end.
Proof.
  unfold quote. cbn [parse_members app skip_ws].
  change (is_ws dquote) with false. cbv beta iota.
  rewrite Ascii.eqb_refl. rewrite <- app_assoc. cbn [app].
  rewrite parse_chars_quoted. cbn [skip_ws].
  change (is_ws ":") with false. cbv beta iota. rewrite Ascii.eqb_refl.
  by rewrite string_of_list_ascii_of_string.
Qed.

Lemma head_cases c :
  is_digit c || Ascii.eqb c "-" = true ->
  is_ws c = false /\ Ascii.eqb c "]" = false /\ Ascii.eqb c "}" = false.
Proof.
  destruct c as [[] [] [] [] [] [] [] []]; try discriminate; by intros _.
Qed.

Lemma print_head v :
  exists c r,
    print v = c :: r
    /\ is_ws c = false /\ Ascii.eqb c "]" = false /\ Ascii.eqb c "}" = false.
Proof.
  destruct v as [| |[]|[z|]|s|f|elems|props];
    try (eexists _, _; split; [reflexivity|]; by split_and!).
  destruct (print_int_head z) as (c & r & Hp & Hc).
  exists c, r. split; [exact Hp|]. by apply head_cases.
Qed.

Lemma print_length v : 0 < length (print v).
Proof. destruct (print_head v) as (c & r & -> & _). simpl. lia. Qed.

Lemma parse_value_array fuel c r :
  is_ws c = false -> Ascii.eqb c "]" = false ->
  parse_value (S fuel) ("["%char :: c :: r) = parse_elems fuel (c :: r) [].
Proof.
  intros Hws Hc.
  assert (skip_ws (c :: r) = c :: r) as Hs by (cbn [skip_ws]; by rewrite Hws).
  cbn [parse_value skip_ws]. change (is_ws "[") with false.
  change (Ascii.eqb "[" "n") with false. change (Ascii.eqb "[" "t") with false.
  change (Ascii.eqb "[" "f") with false. change (Ascii.eqb "[" dquote) with false.
  change (Ascii.eqb "[" "[") with true. cbv beta iota. by rewrite Hs, Hc.
Qed.

Lemma parse_value_object fuel r :
  parse_value (S fuel) ("{"%char :: dquote :: r) = parse_members fuel (dquote :: r) [].
Proof. reflexivity. Qed.

Lemma elems_tail_closes l rest : closes (elems_tail print l ++ rest) = true.
Proof. by destruct l. Qed.

Lemma parse_elems_print l :
  Forall reads_back l ->
  forall x acc fuel rest,
    reads_back x ->
    length (print x ++ elems_tail print l) < fuel ->
    parse_elems fuel (print x ++ elems_tail print l ++ rest) acc
    = Some (JArr (rev acc ++ json_norm x :: map json_norm l), rest).
Proof.
  induction 1 as [|y l Hy Hl IH]; intros x acc fuel rest Hx Hfuel;
    (destruct fuel as [|fuel]; [lia|]); rewrite length_app in Hfuel;
    rewrite parse_elems_S.
  - cbn [elems_tail length] in *. rewrite Hx by (done || lia). done.
  - cbn [elems_tail] in *. cbn [length] in Hfuel.
    rewrite Hx by (done || lia). cbn [app skip_ws].
    change (is_ws ",") with false. cbv beta iota. rewrite Ascii.eqb_refl.
    rewrite <- app_assoc. rewrite IH; [|done|lia].
    cbn [rev map]. by rewrite <- app_assoc.
Qed.

Lemma members_false_closes ps rest :
  forallb defined_field ps = true -> closes (members print false ps ++ rest) = true.
Proof.
  destruct ps as [|kv ps]; [done|]. cbn [forallb members]. unfold defined_field.
  intros H. apply andb_true_iff in H as [H _]. apply negb_true_iff in H.
  by rewrite H.
Qed.

Lemma parse_members_print ps :
  Forall (fun kv => reads_back (snd kv)) ps -> forallb defined_field ps = true ->
  forall k x acc fuel rest,
    reads_back x ->
    length (quote k ++ ":"%char :: print x ++ members print false ps) < fuel ->
    parse_members fuel (quote k ++ ":"%char :: print x ++ members print false ps ++ rest) acc
    = Some (JObj (fold_left (norm_step json_norm) ps (obj_set k (json_norm x) acc)), rest).
Proof.
  induction 1 as [|[k' x'] ps Hy Hps IH]; intros Hdef k x acc fuel rest Hx Hfuel;
    (destruct fuel as [|fuel]; [lia|]);
    rewrite length_app in Hfuel; cbn [length] in Hfuel; rewrite length_app in Hfuel;
    rewrite parse_members_quoted.
  - cbn [members length] in *. rewrite Hx by (done || lia). done.
  - cbn [forallb] in Hdef. apply andb_true_iff in Hdef as [Hd Hdef].
    pose proof Hd as Hu. unfold defined_field in Hu. apply negb_true_iff in Hu.
    simpl in Hu.
    rewrite Hx; [| lia | by apply members_false_closes; cbn [forallb]; rewrite Hd].
    cbn [members fst snd] in *. rewrite Hu in *. cbn [app] in *.
    cbn [skip_ws]. change (is_ws ",") with false. cbv beta iota zeta.
    rewrite Ascii.eqb_refl.
    cbn [length] in Hfuel.
    replace ((quote k' ++ ":"%char :: print x' ++ members print false ps) ++ rest)
      with (quote k' ++ ":"%char :: print x' ++ members print false ps ++ rest)
      by (rewrite <- !app_assoc; cbn [app]; by rewrite <- !app_assoc).
    rewrite IH; [|done|done|lia].
    cbn [fold_left]. do 3 f_equal. unfold norm_step. cbn [fst snd]. by rewrite Hu.
Qed.

Lemma members_defined first ps :
  members print first ps = members print first (List.filter defined_field ps).
Proof.
  revert first. induction ps as [|[k x] ps IH]; intros first; [done|].
  cbn [members List.filter fst snd]. unfold defined_field at 1. cbn [snd].
  destruct (is_undefined x) eqn:Hu; cbn [negb]; [apply IH|].
  cbn [members fst snd]. rewrite Hu. by rewrite (IH false).
Qed.

Lemma norm_fold_defined ps acc :
  fold_left (norm_step json_norm) ps acc
  = fold_left (norm_step json_norm) (List.filter defined_field ps) acc.
Proof.
  revert acc. induction ps as [|[k x] ps IH]; intros acc; [done|].
  cbn [fold_left List.filter]. unfold defined_field at 1, norm_step at 2.
  cbn [fst snd]. destruct (is_undefined x) eqn:Hu; cbn [negb]; [apply IH|].
  cbn [fold_left]. unfold norm_step at 3. cbn [fst snd]. rewrite Hu. apply IH.
Qed.

Lemma filter_defined ps : forallb defined_field (List.filter defined_field ps) = true.
Proof.
  apply forallb_forall. intros kv Hin. by apply filter_In in Hin as [_ H].
Qed.

(** Parsing the text of a value gives its normal form. *)
Lemma print_reads_back v : reads_back v.
Proof.
  induction v as [| |b|n|s|f|elems IH|props IH] using JsValue_deep_ind;
    intros fuel rest Hfuel Hrest; (destruct fuel as [|fuel]; [lia|]).
  - reflexivity.
  - reflexivity.
  - by destruct b.
  - destruct n as [z|]; [|reflexivity]. cbn [print json_norm].
    destruct (print_int_head z) as (c & r & Hp & Hc).
    rewrite Hp. cbn [app]. rewrite parse_value_number by done.
    change (c :: r ++ rest) with ((c :: r) ++ rest). rewrite <- Hp.
    by apply parse_number_print.
  - cbn [print json_norm]. unfold quote. cbn [app parse_value skip_ws].
    change (is_ws dquote) with false. cbv beta iota.
    change (Ascii.eqb dquote "n") with false. change (Ascii.eqb dquote "t") with false.
    change (Ascii.eqb dquote "f") with false. rewrite Ascii.eqb_refl.
    cbv beta iota. rewrite <- app_assoc. cbn [app]. rewrite parse_chars_quoted.
    by rewrite string_of_list_ascii_of_string.
  - reflexivity.
  - destruct elems as [|x l]; [reflexivity|].
    apply Forall_cons in IH as [Hx Hl]. cbn [print json_norm map] in *.
    destruct (print_head x) as (c & r & Hp & Hws & Hc & _).
    cbn [app]. rewrite <- app_assoc.
    assert (parse_value (S fuel) ("["%char :: print x ++ elems_tail print l ++ rest)
            = parse_elems fuel (print x ++ elems_tail print l ++ rest) []) as ->.
    { rewrite Hp. cbn [app]. by apply parse_value_array. }
    cbn [length] in Hfuel.
    by rewrite (parse_elems_print l Hl x [] fuel rest Hx) by lia.
  - cbn [print json_norm] in *. rewrite norm_fold_defined.
    rewrite members_defined in *.
    assert (Forall (fun kv => reads_back (snd kv)) (List.filter defined_field props))
      as Hall.
    { apply Forall_forall. intros kv Hin. rewrite Forall_forall in IH.
      apply IH. apply list_elem_of_In. apply list_elem_of_In in Hin.
      by apply filter_In in Hin as [Hin _]. }
    pose proof (filter_defined props) as Hdef.
    destruct (List.filter defined_field props) as [|[k x] ps]; [reflexivity|].
    apply Forall_cons in Hall as [Hx Hps]. cbn [forallb] in Hdef.
    apply andb_true_iff in Hdef as [Hd Hdef].
    unfold defined_field in Hd. apply negb_true_iff in Hd. cbn [snd] in Hd, Hx.
    cbn [members fst snd] in *. rewrite Hd in *. cbn [app] in *.
    cbn [length] in Hfuel.
    assert (forall s, parse_value (S fuel) ("{"%char :: quote k ++ s)
                      = parse_members fuel (quote k ++ s) []) as Hopen.
    { intros s0. unfold quote. cbn [app]. apply parse_value_object. }
    rewrite <- app_assoc. rewrite Hopen. cbn [app]. rewrite <- app_assoc.
    rewrite (parse_members_print ps Hps Hdef k x [] fuel rest Hx) by lia.
    cbn [fold_left]. do 3 f_equal. unfold norm_step. cbn [fst snd]. by rewrite Hd.
Qed.

Lemma JSON_parse_stringify v text :
  JSON_stringify v = Some text -> JSON_parse text = Ok (json_norm v).
Proof.
  unfold JSON_stringify, JSON_parse. destruct (is_undefined v); [done|].
  intros [= <-]. rewrite list_ascii_of_string_of_list_ascii.
  rewrite <- (app_nil_r (print v)) at 2.
  by rewrite print_reads_back by (done || lia).
Qed.

(** *** The draft store *)

Lemma norm_fold_id props acc :
  Forall (fun kv => json_plain (snd kv) = true -> json_norm (snd kv) = snd kv) props ->
  NoDup (map fst (acc ++ props)) ->
  Forall (fun kv => json_plain (snd kv) = true) props ->
  fold_left (norm_step json_norm) props acc = acc ++ props.
Proof.
  intros Hall. revert acc.
  induction Hall as [|[k v] rest Hv Hall IH]; simpl; intros acc Hnd Hok.
  - by rewrite app_nil_r.
  - apply Forall_cons in Hok as [Hp Hok]. simpl in *.
    unfold norm_step at 2. simpl. rewrite (Hv Hp).
    assert (is_undefined v = false) as -> by (by destruct v).
    rewrite obj_set_fresh.
    + rewrite IH; [by rewrite <- app_assoc | by rewrite <- app_assoc | done].
    + rewrite map_app in Hnd. simpl in Hnd.
      apply NoDup_app in Hnd as (_ & Hdisj & _).
      intros Hin. apply (Hdisj k Hin). by left.
Qed.

(** Plain data is its own normal form. *)
Lemma json_norm_plain v : json_plain v = true -> json_norm v = v.
Proof.
  induction v as [| |b|n|s|f|elems IH|props IH] using JsValue_deep_ind; try done.
  - by destruct n.
  - simpl. intros Hs. f_equal. rewrite forallb_forall in Hs.
    rewrite Forall_forall in IH. rewrite <- (map_id elems) at 2.
    apply map_ext_in. intros x Hin. apply IH; [by apply list_elem_of_In | auto].
  - cbn [json_plain json_norm]. intros Hs. apply andb_true_iff in Hs as [Hnd Hok].
    f_equal. apply (norm_fold_id props []); [done | by apply distinct_NoDup |].
    rewrite forallb_forall in Hok. apply Forall_forall. intros kv Hin.
    by apply Hok, list_elem_of_In.
Qed.

Lemma toString_truthy n : truthy (Some (toString n)) = true.
Proof.
  destruct n as [z|]; [|reflexivity]. unfold toString.
  by destruct (print_int_head z) as (c & r & -> & _).
Qed.

Lemma stringify_truthy v : is_undefined v = false -> truthy (JSON_stringify v) = true.
Proof.
  intros Hu. unfold JSON_stringify. rewrite Hu.
  by destruct (print_head v) as (c & r & -> & _).
Qed.

Lemma load_save storage step data :
  is_undefined data = false ->
  load (save storage step data) = Ok (step, json_norm data).
Proof.
  intros Hu. unfold load, restore, save. cbn [sessionStorage].
  rewrite lookup_insert_eq, lookup_insert_ne by done. rewrite lookup_insert_eq.
  assert (JSON_stringify data = Some (string_of_list_ascii (print data))) as Hs.
  { unfold JSON_stringify. by rewrite Hu. }
  pose proof (stringify_truthy data Hu) as Ht. rewrite Hs in *.
  unfold item_text. cbn [from_option id]. rewrite toString_truthy, Ht.
  rewrite (JSON_parse_stringify data _ Hs).
  cbn [mbind Result_bind currentStep formData]. by rewrite parseInt_toString.
Qed.


Lemma draft_store_roundtrip_sample :
  let data :=
    JObj [("country", JObj [("name", JStr "US")]);
          ("package", JObj [("name", JStr "Pro"); ("price", JNum (Int 199))]);
          ("owner", JArr [JObj [("id", JStr "1"); ("fullName", JStr "Ann Lee");
                                ("ownership", JStr "100"); ("isCEO", JBool true)]])] in
  load (save ∅ (Int 4) data) = Ok (Int 4, data).
Proof. by vm_compute. Qed.

Lemma draft_store_file_handle :
  let data :=
    JObj [("owner", JArr [JObj [("id", JStr "1"); ("isCEO", JUndefined);
                                ("document", JFile "passport.pdf")]])] in
  load (save ∅ (Int 4) data)
  = Ok (Int 4, JObj [("owner", JArr [JObj [("id", JStr "1"); ("document", JObj [])]])]).
Proof. by vm_compute. Qed.

(** *** The step controller *)

Lemma js_prop_ok v key : nullish v = false -> exists x, js_prop v key = Ok x.
Proof. destruct v; try discriminate; intros _; simpl; eauto. Qed.

Lemma owner_entry_ok owner :
  nullish owner = false -> exists entry, owner_entry owner = Ok entry.
Proof.
  intros Hn. unfold owner_entry.
  destruct (js_prop_ok owner "id" Hn) as [? ->].
  destruct (js_prop_ok owner "fullName" Hn) as [? ->].
  destruct (js_prop_ok owner "ownership" Hn) as [? ->].
  destruct (js_prop_ok owner "isCEO" Hn) as [? ->].
  destruct (js_prop_ok owner "birthDate" Hn) as [? ->].
  destruct (js_prop_ok owner "document" Hn) as [? ->].
  cbn. eauto.
Qed.

Lemma map_owner_entry_ok owners :
  forallb (fun owner => negb (nullish owner)) owners = true ->
  exists entries, map_result owner_entry owners = Ok entries.
Proof.
  induction owners as [|owner owners IH]; cbn [forallb map_result]; [eauto|].
  intros H. apply andb_true_iff in H as [Ho Hs]. apply negb_true_iff in Ho.
  destruct (owner_entry_ok owner Ho) as [entry ->].
  destruct (IH Hs) as [entries ->]. cbn. eauto.
Qed.

(** With step data of the right shape, [merge] replaces the field of the
    step in a copy of the previous data. *)
Lemma merge_ok step field prev stepData :
  merged_field step = Some field -> well_shaped step stepData = true ->
  exists value,
    merge (Int step) prev stepData
    = Ok (obj_set field value (assign [] (own_entries prev))).
Proof.
  intros Hf Hw. unfold merged_field in Hf.
  destruct step as [|[[[]|[]|]|[[]|[]|]|]|]; try discriminate;
    injection Hf as <-; cbn [well_shaped] in Hw.
  - apply negb_true_iff in Hw. unfold merge.
    destruct (js_prop_ok stepData "street" Hw) as [? ->].
    destruct (js_prop_ok stepData "city" Hw) as [? ->].
    destruct (js_prop_ok stepData "state" Hw) as [? ->].
    destruct (js_prop_ok stepData "postalCode" Hw) as [? ->].
    destruct (js_prop_ok stepData "country" Hw) as [? ->].
    cbn. eauto.
  - apply negb_true_iff in Hw. unfold merge.
    destruct (js_prop_ok stepData "name" Hw) as [? ->].
    destruct (js_prop_ok stepData "type" Hw) as [? ->].
    destruct (js_prop_ok stepData "industry" Hw) as [? ->].
    cbn. eauto.
  - destruct stepData as [| | | | | |owners|]; try discriminate.
    unfold merge. destruct (map_owner_entry_ok owners Hw) as [entries ->].
    cbn. eauto.
  - apply negb_true_iff in Hw. unfold merge.
    destruct (js_prop_ok stepData "name" Hw) as [? ->].
    destruct (js_prop_ok stepData "price" Hw) as [? ->].
    cbn. eauto.
  - apply negb_true_iff in Hw. unfold merge.
    destruct (js_prop_ok stepData "name" Hw) as [? ->].
    cbn. eauto.
Qed.

(** What each step makes of an object that the form hands over: the
    field of the step, built from the properties that the step reads. *)
Lemma merge_contract prev stepData :
  let read key := default JUndefined (obj_get key stepData) in
  let newData := assign [] (own_entries prev) in
  merge (Int 1) prev (JObj stepData)
  = Ok (obj_set "country" (JObj [("name", read "name")]) newData)
  /\ merge (Int 2) prev (JObj stepData)
     = Ok (obj_set "package"
             (JObj [("name", read "name"); ("price", read "price")]) newData)
  /\ merge (Int 3) prev (JObj stepData)
     = Ok (obj_set "company"
             (JObj [("name", read "name"); ("type", read "type");
                    ("industry", read "industry")]) newData)
  /\ merge (Int 5) prev (JObj stepData)
     = Ok (obj_set "address"
             (JObj [("street", read "street"); ("city", read "city");
                    ("state", read "state"); ("postalCode", read "postalCode");
                    ("country", read "country")]) newData).
Proof. by split_and!. Qed.

(** [handleNext] moves one step forward and writes the new step and the
    new data to the session storage. *)
Lemma handleNext_persists page stepData page' :
  handleNext page stepData = Ok page' ->
  currentStep page' = plus (currentStep page) 1
  /\ sessionStorage page' !! STEP_KEY = Some (toString (currentStep page'))
  /\ Some <$> sessionStorage page' !! DATA_KEY
     = Some (JSON_stringify (formData page')).
Proof.
  unfold handleNext.
  destruct (merge (currentStep page) (formData page) stepData) as [newData|];
    [|discriminate].
  cbn [mbind Result_bind]. intros [= <-]. cbn [currentStep sessionStorage formData].
  split; [done|]. rewrite lookup_insert_eq.
  rewrite lookup_insert_ne by done. rewrite lookup_insert_eq. done.
Qed.

Lemma handleBack_first page :
  currentStep page = Int 1 ->
  currentStep (handleBack page) = Int 1
  /\ sessionStorage (handleBack page) = sessionStorage page
  /\ pushed (handleBack page) = "/dashboard/business" :: pushed page.
Proof. unfold handleBack. by intros ->. Qed.

Lemma handleBack_other page n :
  currentStep page = Int n -> n <> 1%Z ->
  currentStep (handleBack page) = Int (n - 1)
  /\ sessionStorage (handleBack page) !! STEP_KEY = Some (toString (Int (n - 1)))
  /\ formData (handleBack page) = formData page
  /\ pushed (handleBack page) = pushed page.
Proof.
  unfold handleBack. intros -> Hn.
  destruct n as [|[]|]; try done; cbn [currentStep sessionStorage formData pushed plus];
    by rewrite lookup_insert_eq.
Qed.

(** [handleEdit] jumps to the step, stores it and leaves the draft
    alone; [handlePaymentComplete] ends at step 8 and removes both entries
    of the session storage. *)
Lemma handleEdit_persists page step :
  currentStep (handleEdit page step) = step
  /\ formData (handleEdit page step) = formData page
  /\ sessionStorage (handleEdit page step) !! STEP_KEY = Some (toString step)
  /\ sessionStorage (handleEdit page step) !! DATA_KEY
     = sessionStorage page !! DATA_KEY.
Proof.
  cbn [handleEdit currentStep formData sessionStorage].
  by rewrite lookup_insert_eq, lookup_insert_ne.
Qed.

Lemma handlePaymentComplete_clears page :
  currentStep (handlePaymentComplete page) = Int 8
  /\ hasRegisteredBusiness (handlePaymentComplete page) = true
  /\ sessionStorage (handlePaymentComplete page) !! STEP_KEY = None
  /\ sessionStorage (handlePaymentComplete page) !! DATA_KEY = None.
Proof.
  cbn [handlePaymentComplete currentStep hasRegisteredBusiness sessionStorage].
  by rewrite lookup_delete_eq, lookup_delete_ne, lookup_delete_eq.
Qed.

(** C7.  After [handleEdit] has moved the page to one of the steps 1 to
    6, the [onNext] of that step, given step data of the right shape,
    moves it to the following step, and every field of the draft other
    than the one that the step replaces still has the value it had before
    the edit. *)
Theorem edit_then_next page t stepData props :
  (1 <= t <= 6)%Z ->
  formData page = JObj props -> distinct (map fst props) = true ->
  well_shaped t stepData = true ->
  exists page' props',
    onNext (handleEdit page (Int t)) stepData = Some (Ok page')
    /\ currentStep page' = Int (t + 1)
    /\ formData page' = JObj props'
    /\ (forall key, merged_field t <> Some key -> obj_get key props' = obj_get key props).
Proof.
  intros Ht Hdata Hdist Hshape. apply distinct_NoDup in Hdist.
  destruct (decide (t = 6%Z)) as [->|Hne].
  - eexists _, props. split; [reflexivity|]. by split_and!.
  - assert (exists field, merged_field t = Some field) as [field Hf].
    { assert (t = 1 \/ t = 2 \/ t = 3 \/ t = 4 \/ t = 5)%Z as Hcases by lia.
      destruct Hcases as [-> | [-> | [-> | [-> | ->]]]]; cbn; eauto. }
    destruct (merge_ok t field (formData page) stepData Hf Hshape) as [value Hm].
    assert (onNext (handleEdit page (Int t)) stepData
            = Some (handleNext (handleEdit page (Int t)) stepData)) as ->.
    { assert (t = 1 \/ t = 2 \/ t = 3 \/ t = 4 \/ t = 5)%Z as Hcases by lia.
      destruct Hcases as [-> | [-> | [-> | [-> | ->]]]]; reflexivity. }
    unfold handleNext. cbn [handleEdit currentStep formData]. rewrite Hm.
    cbn [mbind Result_bind]. eexists _, _. split; [reflexivity|].
    cbn [currentStep formData plus]. split_and!; [done|done|].
    intros key Hkey. rewrite Hdata. cbn [own_entries].
    rewrite assign_app by done. cbn [app].
    apply obj_get_set_ne. congruence.
Qed.

Lemma edit_then_next_witness :
  let page :=
    {| currentStep := Int 6;
       formData := JObj [("country", JObj [("name", JStr "US")]);
                         ("company", JObj [("name", JStr "Acme")])];
       hasRegisteredBusiness := false;
       sessionStorage := ∅;
       pushed := [] |} in
  exists page' props',
    onNext (handleEdit page (Int 3)) (JObj [("name", JStr "Apex")]) = Some (Ok page')
    /\ currentStep page' = Int (3 + 1)%Z
    /\ formData page' = JObj props'
    /\ (forall key, merged_field 3 <> Some key ->
        obj_get key props'
        = obj_get key [("country", JObj [("name", JStr "US")]);
                       ("company", JObj [("name", JStr "Acme")])]).
Proof.
  intros page.
  apply (edit_then_next page 3 (JObj [("name", JStr "Apex")])
           [("country", JObj [("name", JStr "US")]);
            ("company", JObj [("name", JStr "Acme")])]).
  - lia.
  - reflexivity.
  - reflexivity.
  - reflexivity.
Defined.

Lemma reviewNext_keeps_storage page stepData :
  currentStep page = Int 6 ->
  onNext page stepData = Some (Ok (reviewNext page))
  /\ currentStep (reviewNext page) = Int 7
  /\ formData (reviewNext page) = formData page
  /\ sessionStorage (reviewNext page) = sessionStorage page.
Proof. unfold onNext. by intros ->. Qed.

(** C2: where the code departs from the claim.  A page is taken through
    the steps 1 to 5 with [handleNext], which stores each new step; at the
    Review step [onNext] moves it to step 7 and stores nothing, so the
    session storage still holds step 6 and a reload of the page resumes at
    step 6. *)
Lemma review_next_not_persisted :
  let inputs :=
    [JObj [("name", JStr "US")];
     JObj [("name", JStr "Pro"); ("price", JNum (Int 199))];
     JObj [("name", JStr "Acme"); ("type", JStr "LLC"); ("industry", JStr "Retail")];
     JArr [JObj [("id", JStr "1"); ("fullName", JStr "Ann Lee");
                 ("ownership", JStr "100")]];
     JObj [("street", JStr "1 Main St"); ("city", JStr "Austin");
           ("state", JStr "TX"); ("postalCode", JStr "73301");
           ("country", JStr "US")]] in
  let review :=
    fold_left (fun r stepData => page ← r; handleNext page stepData) inputs (Ok initial) in
  exists page6 page7 reloaded,
    review = Ok page6
    /\ currentStep page6 = Int 6
    /\ sessionStorage page6 !! STEP_KEY = Some "6"
    /\ onNext page6 JUndefined = Some (Ok page7)
    /\ currentStep page7 = Int 7
    /\ sessionStorage page7 !! STEP_KEY = Some "6"
    /\ restore {| currentStep := Int 1; formData := JObj [];
                  hasRegisteredBusiness := false;
                  sessionStorage := sessionStorage page7; pushed := [] |}
       = Ok reloaded
    /\ currentStep reloaded = Int 6.
Proof.
  intros inputs review. eexists _, _, _.
  split; [vm_compute; reflexivity|].
  split; [reflexivity|]. split; [by vm_compute|].
  split; [reflexivity|]. split; [reflexivity|]. split; [by vm_compute|].
  split; [vm_compute; reflexivity|]. reflexivity.
Qed.

(** *** What [handleNext] accepts and stores *)

Lemma owner_entry_cases owner :
  if nullish owner then owner_entry owner = Throw TypeError
  else exists entry, owner_entry owner = Ok entry.
Proof.
  destruct (nullish owner) eqn:E; [by destruct owner | by apply owner_entry_ok].
Qed.

Lemma map_owner_entry_throws owners :
  forallb (fun owner => negb (nullish owner)) owners = false ->
  map_result owner_entry owners = Throw TypeError.
Proof.
  induction owners as [|owner owners IH]; cbn [forallb map_result]; [done|].
  intros H. pose proof (owner_entry_cases owner) as Ho.
  destruct (nullish owner) eqn:E.
  - by rewrite Ho.
  - destruct Ho as [entry ->]. simpl in H. rewrite (IH H). reflexivity.
Qed.


Lemma owner_entry_fields owner entry :
  owner_entry owner = Ok entry ->
  exists props,
    entry = JObj props /\ map fst props = owner_keys
    /\ forall key,
         js_prop entry key
         = if bool_decide (key ∈ owner_keys) then js_prop owner key else Ok JUndefined.
Proof.
  intros H.
  assert (Hread : exists read : string -> JsValue,
             (forall key, js_prop owner key = Ok (read key))
             /\ entry = JObj (map (fun key => (key, read key)) owner_keys)).
  { destruct owner as [| |b|n|s|f|l|p]; try discriminate; injection H as <-.
    - by exists (fun _ => JUndefined).
    - by exists (fun _ => JUndefined).
    - by exists (fun _ => JUndefined).
    - by exists (fun key => if String.eqb key "name" then JStr f else JUndefined).
    - by exists (fun _ => JUndefined).
    - by exists (fun key => default JUndefined (obj_get key p)). }
  destruct Hread as (read & Hread & ->). eexists. split_and!; [reflexivity|done|].
  intros key. rewrite Hread. case_bool_decide as Hin.
  - unfold owner_keys in Hin. rewrite !elem_of_cons, elem_of_nil in Hin.
    destruct Hin as [-> | [-> | [-> | [-> | [-> | [-> | []]]]]]]; reflexivity.
  - cbn [js_prop]. rewrite obj_get_notin; [done|].
    by rewrite map_map, map_id.
Qed.

Lemma map_owner_entry_fields owners entries :
  map_result owner_entry owners = Ok entries ->
  Forall2 (fun owner entry => owner_entry owner = Ok entry) owners entries.
Proof.
  revert entries. induction owners as [|owner owners IH]; cbn [map_result]; intros entries.
  - intros [= <-]. constructor.
  - destruct (owner_entry owner) as [entry|] eqn:E; [|discriminate].
    cbn [mbind Result_bind].
    destruct (map_result owner_entry owners) as [rest|]; [|discriminate].
    cbn [mbind Result_bind]. intros [= <-]. constructor; [done|]. by apply IH.
Qed.

(** X21.  At step 4 [handleNext] stores one entry per owner, in order.
    An entry has the six properties [id], [fullName], [ownership], [isCEO],
    [birthDate] and [document], each with the value read from the owner,
    and no other: whatever else the owner carries does not reach the
    draft. *)
Theorem handleNext_owner_entries page owners page' :
  currentStep page = Int 4 ->
  handleNext page (JArr owners) = Ok page' ->
  exists entries,
    js_prop (formData page') "owner" = Ok (JArr entries)
    /\ Forall2
         (fun owner entry =>
            exists props,
              entry = JObj props /\ map fst props = owner_keys
              /\ forall key,
                   js_prop entry key
                   = if bool_decide (key ∈ owner_keys) then js_prop owner key
                     else Ok JUndefined)
         owners entries.
Proof.
  intros Hstep. unfold handleNext. rewrite Hstep. cbn [merge].
  destruct (map_result owner_entry owners) as [entries|] eqn:E; [|discriminate].
  cbn [mbind Result_bind]. intros [= <-]. cbn [formData js_prop].
  exists entries. split; [by rewrite obj_get_set_eq|].
  apply map_owner_entry_fields in E.
  eapply Forall2_impl; [exact E|]. intros owner entry. apply owner_entry_fields.
Qed.

Lemma handleNext_owner_entries_witness :
  let page :=
    {| currentStep := Int 4; formData := JObj [("country", JObj [("name", JStr "US")])];
       hasRegisteredBusiness := false; sessionStorage := ∅; pushed := [] |} in
  let owners :=
    [JObj [("id", JStr "1"); ("fullName", JStr "Ann Lee"); ("ownership", JStr "100");
           ("documentUrl", JStr "https://example.com/passport.pdf")]] in
  let page' :=
    match handleNext page (JArr owners) with
    | Ok next => next
    | Throw _ => page
    end in
  exists entries,
    js_prop (formData page') "owner" = Ok (JArr entries)
    /\ Forall2
         (fun owner entry =>
            exists props,
              entry = JObj props /\ map fst props = owner_keys
              /\ forall key,
                   js_prop entry key
                   = if bool_decide (key ∈ owner_keys) then js_prop owner key
                     else Ok JUndefined)
         owners entries.
Proof.
  intros page owners page'.
  apply (handleNext_owner_entries page owners page'); reflexivity.
Defined.

(** X22.  The amount that the Payment step is given is the price entered
    at step 2, or 0 when that price is missing, zero or otherwise falsy;
    [handleNext] at the steps 1, 3, 4 and 5 does not change it. *)
Theorem payment_amount_is_package_price page stepData page' props :
  formData page = JObj props -> NoDup (map fst props) ->
  handleNext page stepData = Ok page' ->
  match currentStep page with
  | Int 2 =>
      exists price,
        js_prop stepData "price" = Ok price
        /\ paymentAmount (formData page')
           = Ok (if js_truthy price then price else JNum (Int 0))
  | Int 1 | Int 3 | Int 4 | Int 5 =>
      paymentAmount (formData page') = paymentAmount (formData page)
  | _ => True
  end.
Proof.
  intros Hdata Hnd. unfold handleNext.
  destruct (merge (currentStep page) (formData page) stepData) as [newData|] eqn:Hm;
    [|discriminate].
  cbn [mbind Result_bind]. intros [= <-]. cbn [formData].
  assert (Hkeep : forall field value,
            field <> "package" ->
            newData = obj_set field value (assign [] (own_entries (formData page))) ->
            paymentAmount (JObj newData) = paymentAmount (formData page)).
  { intros field value Hne ->. rewrite Hdata. unfold paymentAmount.
    cbn [js_prop own_entries].
    rewrite obj_get_set_ne by done. by rewrite assign_app by done. }
  assert (Hshape : forall step field,
            currentStep page = Int step -> merged_field step = Some field ->
            field <> "owner" -> field <> "package" ->
            paymentAmount (JObj newData) = paymentAmount (formData page)).
  { intros step field Hstep Hfield Howner Hpackage. rewrite Hstep in Hm.
    assert (well_shaped step stepData = true) as Hw.
    { destruct step as [|[[[]|[]|]|[[]|[]|]|]|]; try discriminate;
        injection Hfield as <-; try done;
        destruct stepData; try reflexivity; discriminate Hm. }
    destruct (merge_ok step field (formData page) stepData Hfield Hw) as [value Hv].
    rewrite Hv in Hm. injection Hm as <-. by apply (Hkeep field value). }
  destruct (currentStep page) as [[|[[[]|[]|]|[[]|[]|]|]|]|] eqn:Hstep; try done.
  - by apply (Hshape 5%Z "address").
  - by apply (Hshape 3%Z "company").
  - unfold merge in Hm. destruct stepData as [| | | | | |owners|]; try done.
    destruct (map_result owner_entry owners) as [entries|]; [|done].
    injection Hm as <-. by apply (Hkeep "owner" (JArr entries)).
  - unfold merge in Hm.
    destruct (js_prop stepData "name") as [name|] eqn:Hname; [|done].
    destruct (js_prop stepData "price") as [price|] eqn:Hprice; [|done].
    injection Hm as <-. exists price. split; [done|].
    unfold paymentAmount. cbn [js_prop]. rewrite obj_get_set_eq. reflexivity.
  - by apply (Hshape 1%Z "country").
Qed.

Lemma payment_amount_is_package_price_witness :
  let page :=
    {| currentStep := Int 2; formData := JObj [("country", JObj [("name", JStr "US")])];
       hasRegisteredBusiness := false; sessionStorage := ∅; pushed := [] |} in
  let stepData := JObj [("name", JStr "Pro"); ("price", JNum (Int 199))] in
  let page' :=
    match handleNext page stepData with
    | Ok next => next
    | Throw _ => page
    end in
  exists price,
    js_prop stepData "price" = Ok price
    /\ paymentAmount (formData page')
       = Ok (if js_truthy price then price else JNum (Int 0)).
Proof.
  intros page stepData page'.
  apply (payment_amount_is_package_price page stepData page'
           [("country", JObj [("name", JStr "US")])]).
  - reflexivity.
  - apply distinct_NoDup. reflexivity.
  - reflexivity.
Defined.

(** *** The handlers of the wizard and a reload *)

Lemma handleNext_saves page stepData page' :
  handleNext page stepData = Ok page' ->
  currentStep page' = plus (currentStep page) 1
  /\ step_saved page' /\ data_saved page' /\ pushed page' = pushed page.
Proof.
  unfold handleNext, step_saved, data_saved.
  destruct (merge (currentStep page) (formData page) stepData) as [newData|];
    [|discriminate].
  cbn [mbind Result_bind]. intros [= <-].
  cbn [currentStep sessionStorage formData pushed].
  split; [done|]. rewrite lookup_insert_eq.
  rewrite lookup_insert_ne by done. by rewrite lookup_insert_eq.
Qed.

(** X23.  What the handlers that the forms are given leave in the session
    storage.  [onNext] at the steps 1 to 5 stores the new step and the new
    draft; [onBack] and [onEdit] store the new step and leave the draft
    and its stored text alone; [onComplete] removes both entries.  Only the
    [onNext] of the Review step moves the page without storing the step.
    None of these handlers navigates: [onBack] is not given to the form of
    step 1, the one step at which [handleBack] would leave the wizard. *)
Theorem wired_events_keep_draft_saved page ev page' :
  fire page ev = Some (Ok page') ->
  pushed page' = pushed page
  /\ match ev with
     | Next _ =>
         match currentStep page with
         | Int 6 =>
             currentStep page' = Int 7
             /\ sessionStorage page' = sessionStorage page
             /\ formData page' = formData page
         | _ =>
             currentStep page' = plus (currentStep page) 1
             /\ step_saved page' /\ data_saved page'
         end
     | Back =>
         currentStep page' = plus (currentStep page) (-1)
         /\ step_saved page' /\ formData page' = formData page
         /\ sessionStorage page' !! DATA_KEY = sessionStorage page !! DATA_KEY
     | Edit step =>
         currentStep page' = step
         /\ step_saved page' /\ formData page' = formData page
         /\ sessionStorage page' !! DATA_KEY = sessionStorage page !! DATA_KEY
     | Complete =>
         currentStep page' = Int 8 /\ hasRegisteredBusiness page' = true
         /\ sessionStorage page' !! STEP_KEY = None
         /\ sessionStorage page' !! DATA_KEY = None
     end.
Proof.
  destruct ev as [stepData| |step|]; unfold fire.
  - unfold onNext. intros H.
    destruct (currentStep page) as [[|[[[]|[]|]|[[]|[]|]|]|]|] eqn:E; try done;
      injection H as H;
      try (apply handleNext_saves in H as (H1 & H2 & H3 & H4);
           rewrite E in H1; by split_and!).
    by subst page'.
  - unfold onBack. intros H.
    assert (handleBack page = page' /\ currentStep page <> Int 1) as [<- Hne].
    { destruct (currentStep page) as [[|[[[]|[]|]|[[]|[]|]|]|]|]; try done;
        by injection H. }
    unfold handleBack, step_saved.
    destruct (currentStep page) as [[|[[[]|[]|]|[[]|[]|]|]|]|] eqn:E; try done;
      cbn [currentStep sessionStorage formData pushed plus];
      by rewrite lookup_insert_eq, lookup_insert_ne.
  - unfold onEdit. intros H.
    assert (handleEdit page step = page') as <-.
    { destruct (currentStep page) as [[|[[[]|[]|]|[[]|[]|]|]|]|]; try done;
        by injection H. }
    unfold step_saved. cbn [handleEdit currentStep sessionStorage formData pushed].
    by rewrite lookup_insert_eq, lookup_insert_ne.
  - unfold onComplete. intros H.
    assert (handlePaymentComplete page = page') as <-.
    { destruct (currentStep page) as [[|[[[]|[]|]|[[]|[]|]|]|]|]; try done;
        by injection H. }
    cbn [handlePaymentComplete currentStep sessionStorage formData pushed
         hasRegisteredBusiness].
    by rewrite lookup_delete_eq, lookup_delete_ne, lookup_delete_eq.
Qed.

Lemma wired_events_keep_draft_saved_witness :
  let page :=
    {| currentStep := Int 3; formData := JObj [("country", JObj [("name", JStr "US")])];
       hasRegisteredBusiness := false;
       sessionStorage := save ∅ (Int 3) (JObj [("country", JObj [("name", JStr "US")])]);
       pushed := [] |} in
  let page' := handleBack page in
  pushed page' = pushed page
  /\ currentStep page' = plus (currentStep page) (-1)
  /\ step_saved page' /\ formData page' = formData page
  /\ sessionStorage page' !! DATA_KEY = sessionStorage page !! DATA_KEY.
Proof.
  intros page page'.
  apply (wired_events_keep_draft_saved page Back page'). reflexivity.
Defined.



(** X25.  After [handlePaymentComplete] a reload starts over: the page
    mounted anew restores nothing, is at step 1 with an empty draft, does
    not know that a business was registered, and is not redirected. *)
Theorem complete_then_reload page :
  restore (mounted (sessionStorage (handlePaymentComplete page)))
  = Ok (mounted (sessionStorage (handlePaymentComplete page))).
Proof.
  unfold restore, mounted.
  cbn [sessionStorage currentStep formData pushed hasRegisteredBusiness
       handlePaymentComplete].
  rewrite lookup_delete_eq, lookup_delete_ne, lookup_delete_eq by done. reflexivity.
Qed.



Lemma handleNext_merge page stepData newData :
  merge (currentStep page) (formData page) stepData = Ok newData ->
  exists page',
    handleNext page stepData = Ok page'
    /\ currentStep page' = plus (currentStep page) 1
    /\ formData page' = JObj newData
    /\ step_saved page' /\ data_saved page'.
Proof.
  intros Hm. unfold handleNext. rewrite Hm. cbn [mbind Result_bind].
  eexists. split; [reflexivity|]. unfold step_saved, data_saved.
  cbn [currentStep formData sessionStorage]. split_and!; [done|done| |].
  - by rewrite lookup_insert_eq.
  - rewrite lookup_insert_ne by done. by rewrite lookup_insert_eq.
Qed.

(** X27.  From the initial page, [handleNext] with readable step data at
    the steps 1 to 5 arrives at the Review step with a draft of exactly the
    five sections [country], [package], [company], [owner] and [address],
    in this order, each built from the properties read from the data of its
    step; the session storage then holds step 6 and the text of that
    draft. *)
Theorem wizard_collects_five_sections country package company owners address :
  nullish country = false -> nullish package = false -> nullish company = false ->
  forallb (fun owner => negb (nullish owner)) owners = true ->
  nullish address = false ->
  exists page countryName packageName price companyName type industry entries
         street city state postalCode addressCountry,
    fold_left (fun r stepData => page ← r; handleNext page stepData)
      [country; package; company; JArr owners; address] (Ok initial)
    = Ok page
    /\ currentStep page = Int 6
    /\ step_saved page /\ data_saved page
    /\ formData page
       = JObj [("country", JObj [("name", countryName)]);
               ("package", JObj [("name", packageName); ("price", price)]);
               ("company", JObj [("name", companyName); ("type", type);
                                 ("industry", industry)]);
               ("owner", JArr entries);
               ("address", JObj [("street", street); ("city", city); ("state", state);
                                 ("postalCode", postalCode);
                                 ("country", addressCountry)])]
    /\ js_prop country "name" = Ok countryName
    /\ js_prop package "name" = Ok packageName
    /\ js_prop package "price" = Ok price
    /\ js_prop company "name" = Ok companyName
    /\ js_prop company "type" = Ok type
    /\ js_prop company "industry" = Ok industry
    /\ map_result owner_entry owners = Ok entries
    /\ js_prop address "street" = Ok street
    /\ js_prop address "city" = Ok city
    /\ js_prop address "state" = Ok state
    /\ js_prop address "postalCode" = Ok postalCode
    /\ js_prop address "country" = Ok addressCountry.
Proof.
  intros H1 H2 H3 H4 H5.
  destruct (js_prop_ok country "name" H1) as [countryName E1].
  destruct (js_prop_ok package "name" H2) as [packageName E2].
  destruct (js_prop_ok package "price" H2) as [price E3].
  destruct (js_prop_ok company "name" H3) as [companyName E4].
  destruct (js_prop_ok company "type" H3) as [type E5].
  destruct (js_prop_ok company "industry" H3) as [industry E6].
  destruct (map_owner_entry_ok owners H4) as [entries E7].
  destruct (js_prop_ok address "street" H5) as [street E8].
  destruct (js_prop_ok address "city" H5) as [city E9].
  destruct (js_prop_ok address "state" H5) as [state E10].
  destruct (js_prop_ok address "postalCode" H5) as [postalCode E11].
  destruct (js_prop_ok address "country" H5) as [addressCountry E12].
  cbn [fold_left mbind Result_bind].
  destruct (handleNext_merge initial country [("country", JObj [("name", countryName)])])
    as (p1 & -> & S1 & D1 & _).
  { cbn [initial currentStep formData merge]. by rewrite E1. }
  cbn [mbind Result_bind].
  destruct (handleNext_merge p1 package
              [("country", JObj [("name", countryName)]);
               ("package", JObj [("name", packageName); ("price", price)])])
    as (p2 & -> & S2 & D2 & _).
  { rewrite S1, D1. cbn [initial currentStep plus Z.add Pos.add Pos.succ merge]. by rewrite E2, E3. }
  cbn [mbind Result_bind].
  destruct (handleNext_merge p2 company
              [("country", JObj [("name", countryName)]);
               ("package", JObj [("name", packageName); ("price", price)]);
               ("company", JObj [("name", companyName); ("type", type);
                                 ("industry", industry)])])
    as (p3 & -> & S3 & D3 & _).
  { rewrite S2, D2, S1. cbn [initial currentStep plus Z.add Pos.add Pos.succ merge].
    by rewrite E4, E5, E6. }
  cbn [mbind Result_bind].
  destruct (handleNext_merge p3 (JArr owners)
              [("country", JObj [("name", countryName)]);
               ("package", JObj [("name", packageName); ("price", price)]);
               ("company", JObj [("name", companyName); ("type", type);
                                 ("industry", industry)]);
               ("owner", JArr entries)])
    as (p4 & -> & S4 & D4 & _).
  { rewrite S3, D3, S2, S1. cbn [initial currentStep plus Z.add Pos.add Pos.succ merge].
    by rewrite E7. }
  cbn [mbind Result_bind].
  destruct (handleNext_merge p4 address
              [("country", JObj [("name", countryName)]);
               ("package", JObj [("name", packageName); ("price", price)]);
               ("company", JObj [("name", companyName); ("type", type);
                                 ("industry", industry)]);
               ("owner", JArr entries);
               ("address", JObj [("street", street); ("city", city); ("state", state);
                                 ("postalCode", postalCode);
                                 ("country", addressCountry)])])
    as (p5 & -> & S5 & D5 & Hs & Hd).
  { rewrite S4, D4, S3, S2, S1. cbn [initial currentStep plus Z.add Pos.add Pos.succ merge].
    by rewrite E8, E9, E10, E11, E12. }
  exists p5, countryName, packageName, price, companyName, type, industry, entries,
    street, city, state, postalCode, addressCountry.
  split_and!; try done.
  by rewrite S5, S4, S3, S2, S1.
Qed.

Lemma wizard_collects_five_sections_witness :
  let country := JObj [("name", JStr "US"); ("code", JStr "us")] in
  let package := JObj [("name", JStr "Pro"); ("price", JNum (Int 199))] in
  let company := JObj [("name", JStr "Acme"); ("type", JStr "LLC")] in
  let owners := [JObj [("id", JStr "1"); ("fullName", JStr "Ann Lee")]] in
  let address := JObj [("city", JStr "Austin")] in
  exists page countryName packageName price companyName type industry entries
         street city state postalCode addressCountry,
    fold_left (fun r stepData => page ← r; handleNext page stepData)
      [country; package; company; JArr owners; address] (Ok initial)
    = Ok page
    /\ currentStep page = Int 6
    /\ step_saved page /\ data_saved page
    /\ formData page
       = JObj [("country", JObj [("name", countryName)]);
               ("package", JObj [("name", packageName); ("price", price)]);
               ("company", JObj [("name", companyName); ("type", type);
                                 ("industry", industry)]);
               ("owner", JArr entries);
               ("address", JObj [("street", street); ("city", city); ("state", state);
                                 ("postalCode", postalCode);
                                 ("country", addressCountry)])]
    /\ js_prop country "name" = Ok countryName
    /\ js_prop package "name" = Ok packageName
    /\ js_prop package "price" = Ok price
    /\ js_prop company "name" = Ok companyName
    /\ js_prop company "type" = Ok type
    /\ js_prop company "industry" = Ok industry
    /\ map_result owner_entry owners = Ok entries
    /\ js_prop address "street" = Ok street
    /\ js_prop address "city" = Ok city
    /\ js_prop address "state" = Ok state
    /\ js_prop address "postalCode" = Ok postalCode
    /\ js_prop address "country" = Ok addressCountry.
Proof.
  intros country package company owners address.
  apply (wizard_collects_five_sections country package company owners address);
    reflexivity.
Defined.

End WizardFacts.
